(** * Bank-statement analyzer: the streaming line-protocol parser
      and the transaction store

    A shallow embedding of the ingestion code of [App.tsx]
    ([handleFileChange], the category handlers and the top-level render
    gate) in the revisions kept in the repository, together with the
    JavaScript built-ins that code relies on ([String.prototype.split],
    [String.prototype.trim], [Array.prototype.pop], [JSON.parse],
    truthiness, [typeof], object spread, template literals). *)

From stdpp Require Import gmap list numbers pretty.
From Stdlib Require Import Ascii.

#[local] Set Warnings "-register-all,-clear-no-such-hyp".

(** ** JavaScript values and string built-ins *)

Module JS.

(** A JavaScript string is a sequence of UTF-16 code units. *)
Abbreviation jstring := (list N).

(** Code units of an ASCII literal. *)
Definition js (s : string) : jstring :=
  N_of_ascii <$> String.list_ascii_of_string s.

(** Same, for writing JSON text: an apostrophe in the literal stands for
    the double quote (code unit 34). *)
Definition jsq (s : string) : jstring :=
  (λ a, if Ascii.eqb a "'"%char then 34%N else N_of_ascii a)
    <$> String.list_ascii_of_string s.

Definition LF : N := 10.
Definition DASH : N := 45.

(** [WhiteSpace] and [LineTerminator] code points, the ones
    [String.prototype.trim] strips. *)
Definition isWhiteSpace (c : N) : bool :=
  ((9 <=? c) && (c <=? 13) || (c =? 32) || (c =? 160) || (c =? 5760)
   || (8192 <=? c) && (c <=? 8202) || (c =? 8232) || (c =? 8233)
   || (c =? 8239) || (c =? 8287) || (c =? 12288) || (c =? 65279))%N.

Fixpoint trimStart (s : jstring) : jstring :=
  match s with
  | c :: r => if isWhiteSpace c then trimStart r else s
  | [] => []
  end.

Definition trimEnd (s : jstring) : jstring := reverse (trimStart (reverse s)).

(** [s.trim()] *)
Definition trim (s : jstring) : jstring := trimEnd (trimStart s).

(** [s.split(sep)] for a separator of one code unit: never empty, the
    empty string gives one empty piece. *)
Fixpoint split (sep : N) (s : jstring) : list jstring :=
  match s with
  | [] => [[]]
  | c :: r =>
      if (c =? sep)%N then [] :: split sep r
      else match split sep r with
           | h :: t => (c :: h) :: t
           | [] => [[c]]
           end
  end.

(** [a.pop()]: the removed last element ([None] is [undefined], for an
    empty array) and the array that is left. *)
Definition pop {A} (a : list A) : option A * list A :=
  (last a, removelast a).

(** Numbers.  A number read by [JSON.parse] is kept as the decimal
    [mant * 10^exp10] its literal denotes; what the program observes of
    the binary64 value it rounds to (round to nearest, ties to even) is
    whether it is zero and whether it is finite, and both are decided
    exactly on the decimal. *)
Record decimal := Dec { mant : Z; exp10 : Z }.

(** Rounds to [+0] or [-0]: magnitude at most [2^-1075], half the least
    subnormal. *)
Definition roundsToZero (d : decimal) : bool :=
  if (mant d =? 0)%Z then true
  else if (0 <=? exp10 d)%Z then false
  else (Z.abs (mant d) * 2 ^ 1075 <=? 10 ^ (- exp10 d))%Z.

(** Rounds to an infinity: magnitude at least [2^1024 - 2^970]. *)
Definition roundsToInfinity (d : decimal) : bool :=
  if (0 <=? exp10 d)%Z
  then (2 ^ 1024 - 2 ^ 970 <=? Z.abs (mant d) * 10 ^ exp10 d)%Z
  else ((2 ^ 1024 - 2 ^ 970) * 10 ^ (- exp10 d) <=? Z.abs (mant d))%Z.

Inductive JsValue : Type :=
  | JUndefined
  | JNull
  | JBool (b : bool)
  | JNumber (d : decimal)
  | JString (s : jstring)
  | JArray (l : list JsValue)
  | JObject (o : gmap jstring JsValue).

(** A plain object: its own properties. *)
Abbreviation obj := (gmap jstring JsValue).

(** [ToBoolean] *)
Definition truthy (v : JsValue) : bool :=
  match v with
  | JUndefined | JNull => false
  | JBool b => b
  | JNumber d => negb (roundsToZero d)
  | JString s => match s with [] => false | _ => true end
  | JArray _ | JObject _ => true
  end.

Inductive TypeTag :=
  | TyUndefined | TyObject | TyBoolean | TyNumber | TyString.

(** [typeof v] *)
Definition typeof (v : JsValue) : TypeTag :=
  match v with
  | JUndefined => TyUndefined
  | JNull | JArray _ | JObject _ => TyObject
  | JBool _ => TyBoolean
  | JNumber _ => TyNumber
  | JString _ => TyString
  end.

Definition isNumber (v : JsValue) : bool :=
  match typeof v with TyNumber => true | _ => false end.

(** [Number.isFinite v] *)
Definition isFinite (v : JsValue) : bool :=
  match v with
  | JNumber d => negb (roundsToInfinity d)
  | _ => false
  end.

(** [v.k] for a property name [k] that is neither inherited from a
    built-in prototype nor an array index nor [length] (the program
    reads [date], [description], [amount] and [type]).  [None] is the
    [TypeError] of reading a property of [null] or [undefined]. *)
Definition getField (v : JsValue) (k : jstring) : option JsValue :=
  match v with
  | JUndefined | JNull => None
  | JObject o => Some (default JUndefined (o !! k))
  | _ => Some JUndefined
  end.

(** Decimal digits of an integer, as [`${n}`] prints a Number that is an
    integer below [10^21] in magnitude. *)
Definition showN (n : N) : jstring := js (pretty n).
Definition showZ (z : Z) : jstring := js (pretty z).

(** The own enumerable properties [{...v}] copies. *)
Definition ownProps (v : JsValue) : obj :=
  match v with
  | JObject o => o
  | JArray l => list_to_map (imap (λ i x, (showN (N.of_nat i), x)) l)
  | JString s => list_to_map (imap (λ i c, (showN (N.of_nat i), JString [c])) s)
  | _ => ∅
  end.

(** [x++] on a Number holding a natural number: binary64 addition is
    exact up to [2^53], and [2^53 + 1] rounds back to [2^53]. *)
Definition postIncrement (n : N) : N :=
  if (n <? 2 ^ 53)%N then (n + 1)%N else n.

End JS.

(** ** [JSON.parse]

    The ECMAScript built-in, as a lexer over code units (a finite
    automaton) followed by a pushdown parser over tokens; both read their
    input once, left to right.  [None] stands for the [SyntaxError]. *)

Module JSON.
Import JS.

Inductive token :=
  | TLBrace | TRBrace | TLBracket | TRBracket | TColon | TComma
  | TString (s : jstring)
  | TNumber (d : decimal)
  | TTrue | TFalse | TNull.

Definition isJsonSpace (c : N) : bool :=
  ((c =? 32) || (c =? 9) || (c =? 10) || (c =? 13))%N.
Definition isDigit (c : N) : bool := ((48 <=? c) && (c <=? 57))%N.
Definition isLower (c : N) : bool := ((97 <=? c) && (c <=? 122))%N.
(** The code units a number literal is made of: digits, [+ - . e E]. *)
Definition isNumberChar (c : N) : bool :=
  (isDigit c || (c =? 43) || (c =? 45) || (c =? 46) || (c =? 101) || (c =? 69))%N.

Definition hexValue (c : N) : option N :=
  if isDigit c then Some (c - 48)%N
  else if ((97 <=? c) && (c <=? 102))%N then Some (c - 87)%N
  else if ((65 <=? c) && (c <=? 70))%N then Some (c - 55)%N
  else None.

Fixpoint spanDigits (s : jstring) : jstring * jstring :=
  match s with
  | c :: r => if isDigit c then let '(d, t) := spanDigits r in (c :: d, t)
              else ([], s)
  | [] => ([], [])
  end.

Definition digitsValue (ds : jstring) : Z :=
  foldl (λ a c, 10 * a + (Z.of_N c - 48))%Z 0%Z ds.

(** The [exp] part of a number, the whole rest of the literal:
    empty, or [e]/[E], an optional sign and at least one digit. *)
Definition exponentOf (s : jstring) : option Z :=
  match s with
  | [] => Some 0%Z
  | c :: r =>
      if ((c =? 101) || (c =? 69))%N then
        let '(neg, r') :=
          match r with
          | 45%N :: t => (true, t)
          | 43%N :: t => (false, t)
          | _ => (false, r)
          end in
        match spanDigits r' with
        | ((_ :: _) as ds, []) =>
            Some (if neg then - digitsValue ds else digitsValue ds)%Z
        | _ => None
        end
      else None
  end.

(** JSON number grammar: an optional minus sign; the integer part, a
    single 0 or digits that do not start with 0; an optional fraction, a
    dot and at least one digit; an optional exponent. *)
Definition numberOf (s : jstring) : option decimal :=
  let '(neg, s1) := match s with 45%N :: t => (true, t) | _ => (false, s) end in
  let '(ip, s2) := spanDigits s1 in
  let intOk := match ip with
               | [] => false
               | [_] => true
               | c :: _ => negb (c =? 48)%N
               end in
  if negb intOk then None
  else
    let frac := match s2 with
                | 46%N :: t =>
                    match spanDigits t with
                    | ((_ :: _) as fp, s3) => Some (fp, s3)
                    | _ => None
                    end
                | _ => Some ([], s2)
                end in
    match frac with
    | None => None
    | Some (fp, s3) =>
        match exponentOf s3 with
        | None => None
        | Some e =>
            let m := digitsValue (ip ++ fp) in
            Some (Dec (if neg then - m else m) (e - Z.of_nat (length fp)))
        end
    end.

Definition wordOf (s : jstring) : option token :=
  if decide (s = js "true") then Some TTrue
  else if decide (s = js "false") then Some TFalse
  else if decide (s = js "null") then Some TNull
  else None.

(** Lexer states; accumulated code units are kept in reverse. *)
Inductive lexState :=
  | LStart
  | LString (acc : jstring)
  | LEscape (acc : jstring)
  | LUnicode (acc : jstring) (hex : list N)
  | LNumber (acc : jstring)
  | LWord (acc : jstring).

(** A code unit met between tokens. *)
Definition lexStart (c : N) : option (list token * lexState) :=
  if isJsonSpace c then Some ([], LStart)
  else if (c =? 123)%N then Some ([TLBrace], LStart)
  else if (c =? 125)%N then Some ([TRBrace], LStart)
  else if (c =? 91)%N then Some ([TLBracket], LStart)
  else if (c =? 93)%N then Some ([TRBracket], LStart)
  else if (c =? 58)%N then Some ([TColon], LStart)
  else if (c =? 44)%N then Some ([TComma], LStart)
  else if (c =? 34)%N then Some ([], LString [])
  else if (isDigit c || (c =? 45))%N then Some ([], LNumber [c])
  else if isLower c then Some ([], LWord [c])
  else None.

(** The token a number or a word ends with; the code unit that ended it
    is then read between tokens. *)
Definition lexClose (t : option token) (c : N) : option (list token * lexState) :=
  match t with
  | None => None
  | Some t =>
      match lexStart c with
      | None => None
      | Some (ts, st) => Some (t :: ts, st)
      end
  end.

Definition lexStep (st : lexState) (c : N) : option (list token * lexState) :=
  match st with
  | LStart => lexStart c
  | LString acc =>
      if (c =? 34)%N then Some ([TString (reverse acc)], LStart)
      else if (c =? 92)%N then Some ([], LEscape acc)
      else if (c <? 32)%N then None
      else Some ([], LString (c :: acc))
  | LEscape acc =>
      if ((c =? 34) || (c =? 92) || (c =? 47))%N then Some ([], LString (c :: acc))
      else if (c =? 98)%N then Some ([], LString (8%N :: acc))
      else if (c =? 102)%N then Some ([], LString (12%N :: acc))
      else if (c =? 110)%N then Some ([], LString (10%N :: acc))
      else if (c =? 114)%N then Some ([], LString (13%N :: acc))
      else if (c =? 116)%N then Some ([], LString (9%N :: acc))
      else if (c =? 117)%N then Some ([], LUnicode acc [])
      else None
  | LUnicode acc hex =>
      match hexValue c with
      | None => None
      | Some h =>
          match hex with
          | [a; b; d] => Some ([], LString ((((a * 16 + b) * 16 + d) * 16 + h)%N :: acc))
          | _ => Some ([], LUnicode acc (hex ++ [h]))
          end
      end
  | LNumber acc =>
      if isNumberChar c then Some ([], LNumber (c :: acc))
      else lexClose (TNumber <$> numberOf (reverse acc)) c
  | LWord acc =>
      if isLower c then Some ([], LWord (c :: acc))
      else lexClose (wordOf (reverse acc)) c
  end.

(** End of the text. *)
Definition lexEnd (st : lexState) : option (list token) :=
  match st with
  | LStart => Some []
  | LNumber acc => (λ d, [TNumber d]) <$> numberOf (reverse acc)
  | LWord acc => (λ t, [t]) <$> wordOf (reverse acc)
  | LString _ | LEscape _ | LUnicode _ _ => None
  end.

Fixpoint lexFrom (st : lexState) (s : jstring) : option (list token) :=
  match s with
  | [] => lexEnd st
  | c :: r =>
      match lexStep st c with
      | None => None
      | Some (ts, st') => (ts ++.) <$> lexFrom st' r
      end
  end.

Definition lex (s : jstring) : option (list token) := lexFrom LStart s.

(** An array or an object being read. *)
Inductive frame :=
  | FArray (elems : list JsValue)           (* elements so far, reversed *)
  | FObject (members : obj)                 (* waiting for a key *)
  | FMember (members : obj) (key : jstring). (* key and colon read *)

Inductive mode :=
  | MValue                 (* a value must come *)
  | MArrayFirst            (* after [: a value or ] *)
  | MObjectFirst           (* after {: a key or } *)
  | MKey                   (* after a comma in an object: a key *)
  | MColon (key : jstring) (* after a key: the colon *)
  | MDone (v : JsValue).   (* a value was read *)

Definition scalarOf (t : token) : option JsValue :=
  match t with
  | TString s => Some (JString s)
  | TNumber d => Some (JNumber d)
  | TTrue => Some (JBool true)
  | TFalse => Some (JBool false)
  | TNull => Some JNull
  | _ => None
  end.

Definition parseValueStart (t : token) (stack : list frame) : option (mode * list frame) :=
  match t with
  | TLBracket => Some (MArrayFirst, FArray [] :: stack)
  | TLBrace => Some (MObjectFirst, FObject ∅ :: stack)
  | _ => (λ v, (MDone v, stack)) <$> scalarOf t
  end.

(** One token.  A repeated key overwrites the earlier member. *)
Definition parseStep (m : mode) (stack : list frame) (t : token)
  : option (mode * list frame) :=
  match m with
  | MValue => parseValueStart t stack
  | MArrayFirst =>
      match t, stack with
      | TRBracket, FArray _ :: rest => Some (MDone (JArray []), rest)
      | _, _ => parseValueStart t stack
      end
  | MObjectFirst =>
      match t, stack with
      | TRBrace, FObject o :: rest => Some (MDone (JObject o), rest)
      | TString k, _ => Some (MColon k, stack)
      | _, _ => None
      end
  | MKey =>
      match t with
      | TString k => Some (MColon k, stack)
      | _ => None
      end
  | MColon k =>
      match t, stack with
      | TColon, FObject o :: rest => Some (MValue, FMember o k :: rest)
      | _, _ => None
      end
  | MDone v =>
      match t, stack with
      | TComma, FArray es :: rest => Some (MValue, FArray (v :: es) :: rest)
      | TRBracket, FArray es :: rest => Some (MDone (JArray (reverse (v :: es))), rest)
      | TComma, FMember o k :: rest => Some (MKey, FObject (<[k := v]> o) :: rest)
      | TRBrace, FMember o k :: rest => Some (MDone (JObject (<[k := v]> o)), rest)
      | _, _ => None
      end
  end.

Fixpoint parseTokens (m : mode) (stack : list frame) (ts : list token)
  : option JsValue :=
  match ts with
  | [] => match m, stack with
          | MDone v, [] => Some v
          | _, _ => None
          end
  | t :: r =>
      match parseStep m stack t with
      | None => None
      | Some (m', stack') => parseTokens m' stack' r
      end
  end.

(** [JSON.parse(text)] *)
Definition parse (text : jstring) : option JsValue :=
  match lex text with
  | None => None
  | Some ts => parseTokens MValue [] ts
  end.

End JSON.

(** ** What the handlers share: the inputs of an upload and the
       transaction objects *)

Module Upload.
Import JS.

(** The selected file, [event.target.files?.[0]]. *)
Record File := { file_type : jstring; file_name : jstring }.

(** What the [catch] clause receives: an [Error] with its message, or
    some other thrown value. *)
Inductive Thrown :=
  | ErrorWith (message : jstring)
  | NotAnError.

(** The collaborator's answer to one request: the chunk texts it
    delivers, in order, and how the stream ends, normally ([None]) or by
    throwing.  A request that is refused delivers no chunk and throws. *)
Record Source := { chunks : list jstring; failure : option Thrown }.

(** [`Failed to analyze statement. ${error instanceof Error ? error.message : 'Unknown error.'}`] *)
Definition failureMessage (e : Thrown) : jstring :=
  js "Failed to analyze statement. "
  ++ match e with
     | ErrorWith m => m
     | NotAnError => js "Unknown error."
     end.

(** [x || ''] for [x] a string or [undefined]. *)
Definition orEmpty (x : option jstring) : jstring :=
  match x with
  | Some ((_ :: _) as s) => s
  | _ => []
  end.

(** [if (s.trim())] *)
Definition nonBlank (s : jstring) : bool := truthy (JString (trim s)).

(** [txData.date && txData.description && typeof txData.amount === 'number' && txData.type],
    the same condition in every revision.  [None]: a property of [null]
    was read, a [TypeError]. *)
Definition guard (txData : JsValue) : option bool :=
  date ← getField txData (js "date");
  if negb (truthy date) then Some false else
  description ← getField txData (js "description");
  if negb (truthy description) then Some false else
  amount ← getField txData (js "amount");
  if negb (isNumber amount) then Some false else
  type ← getField txData (js "type");
  Some (truthy type).

(** [`${Date.now()}-${transactionCount++}`], from the clock reading and
    the counter's value before the increment. *)
Definition makeId (now : Z) (count : N) : jstring :=
  showZ now ++ [DASH] ++ showN count.

(** [v === s] for a string [s]. *)
Definition isString (v : JsValue) (s : jstring) : bool :=
  match v with
  | JString s' => bool_decide (s' = s)
  | _ => false
  end.

(** [t.category] of a stored transaction. *)
Definition categoryOf (t : obj) : JsValue := default JUndefined (t !! js "category").

(** [{ ...t, category: name }] *)
Definition withCategory (name : jstring) (t : obj) : obj :=
  <[js "category" := JString name]> t.

Definition Uncategorized : jstring := js "Uncategorized".

(** What the top-level component mounts. *)
Inductive Screen :=
  | UploadScreen
  | AnalysisScreen (transactions : list obj) (isStreaming : bool)
  | ErrorScreen (message : jstring)
  | ErrorBanner (message : jstring)
  | Spinner.

Record Category := { cat_id : jstring; cat_name : jstring }.

(** [categories.find(c => c.id === id)] *)
Definition findCategory (id : jstring) (cs : list Category) : option Category :=
  list_find (λ c, cat_id c = id) cs ≫= λ p, Some p.2.

End Upload.

(** ** First revision of [App.tsx] *)

Module App1.
Import JS Upload.

Inductive AppState := upload | analyzing | error.

(** The component state the modelled handlers read and write. *)
Record State := {
  appState : AppState;
  transactions : list obj;
  categories : list Category;
  errorMessage : jstring;
  isStreaming : bool;
  editingCategoryId : option jstring;
  editingCategoryName : jstring;
  deletingCategoryId : option jstring;
}.

(** The local variables of the streaming loop, with the number of
    [Date.now()] calls made so far and the [transactions] state the
    functional updates apply to. *)
Record Loop := {
  buffer : jstring;
  transactionCount : N;
  clockReads : nat;
  store : list obj;
}.

Section Ingest.
(** [clock k] is what the [k]-th call of [Date.now()] returns. *)
Variable clock : nat → Z.

(** The body of [try] for one candidate text: the parsed record when the
    condition holds; [None] when it does not or when [JSON.parse] or the
    condition throws, which the [catch] clause only logs. *)
Definition accepted (text : jstring) : option JsValue :=
  txData ← JSON.parse text;
  ok ← guard txData;
  if ok : bool then Some txData else None.

(** [{ ...txData, id: `${Date.now()}-${transactionCount++}`, category: 'Uncategorized' }] *)
Definition newTransaction (txData : JsValue) (now : Z) (count : N) : obj :=
  <[js "category" := JString Uncategorized]>
    (<[js "id" := JString (makeId now count)]> (ownProps txData)).

(** One turn of [for (const line of lines)]: the pair is [newTxs] and the
    loop variables. *)
Definition lineStep (acc : list obj * Loop) (line : jstring) : list obj * Loop :=
  let '(newTxs, s) := acc in
  if nonBlank line then
    match accepted line with
    | Some txData =>
        (newTxs ++ [newTransaction txData (clock (clockReads s)) (transactionCount s)],
         {| buffer := buffer s;
            transactionCount := postIncrement (transactionCount s);
            clockReads := S (clockReads s);
            store := store s |})
    | None => acc
    end
  else acc.

(** One turn of [for await (const chunk of stream)]. *)
Definition chunkStep (s : Loop) (text : jstring) : Loop :=
  let buffer1 := buffer s ++ text in
  let '(last, lines) := pop (split LF buffer1) in
  let buffer2 := orEmpty last in
  let '(newTxs, s') :=
    foldl lineStep
      ([], {| buffer := buffer2; transactionCount := transactionCount s;
              clockReads := clockReads s; store := store s |})
      lines in
  if bool_decide (0 < length newTxs) then
    {| buffer := buffer s'; transactionCount := transactionCount s';
       clockReads := clockReads s'; store := store s' ++ newTxs |}
  else s'.

(** The [if (buffer.trim())] block after the loop. *)
Definition flush (s : Loop) : Loop :=
  if nonBlank (buffer s) then
    match accepted (buffer s) with
    | Some txData =>
        {| buffer := buffer s;
           transactionCount := postIncrement (transactionCount s);
           clockReads := S (clockReads s);
           store := store s ++
             [newTransaction txData (clock (clockReads s)) (transactionCount s)] |}
    | None => s
    end
  else s.

(** After [setTransactions([])]: [let buffer = ''; let transactionCount = 0]. *)
Definition start : Loop :=
  {| buffer := []; transactionCount := 0; clockReads := 0; store := [] |}.

Definition streamLoop (texts : list jstring) : Loop := foldl chunkStep start texts.

(** [handleFileChange].  [apiKey] tells whether [process.env.API_KEY] is
    set.  When the stream throws, the chunks delivered before have been
    processed, the flush is skipped and the [catch] clause runs; the
    state is the one left when the handler returns.  In the [else]
    branch the timer that is set is [autoRecover] below. *)
Definition handleFileChange (apiKey : bool) (file : option File) (src : Source)
    (st : State) : State :=
  match file with
  | Some f =>
      if bool_decide (file_type f = js "application/pdf") then
        let failed e txs :=
          {| appState := error; transactions := txs; categories := categories st;
             errorMessage := failureMessage e; isStreaming := false;
             editingCategoryId := editingCategoryId st;
             editingCategoryName := editingCategoryName st;
             deletingCategoryId := deletingCategoryId st |} in
        if negb apiKey then
          failed (ErrorWith (js "API_KEY environment variable not set.")) []
        else
          let s := streamLoop (chunks src) in
          match failure src with
          | Some e => failed e (store s)
          | None =>
              {| appState := analyzing; transactions := store (flush s);
                 categories := categories st; errorMessage := [];
                 isStreaming := false;
                 editingCategoryId := editingCategoryId st;
                 editingCategoryName := editingCategoryName st;
                 deletingCategoryId := deletingCategoryId st |}
          end
      else
        {| appState := error; transactions := transactions st;
           categories := categories st;
           errorMessage := js "Please upload a valid PDF file.";
           isStreaming := isStreaming st;
           editingCategoryId := editingCategoryId st;
           editingCategoryName := editingCategoryName st;
           deletingCategoryId := deletingCategoryId st |}
  | None =>
      {| appState := error; transactions := transactions st;
         categories := categories st;
         errorMessage := js "Please upload a valid PDF file.";
         isStreaming := isStreaming st;
         editingCategoryId := editingCategoryId st;
         editingCategoryName := editingCategoryName st;
         deletingCategoryId := deletingCategoryId st |}
  end.

End Ingest.

(** The timer callback of the [else] branch, three seconds later. *)
Definition autoRecover (st : State) : State :=
  match appState st with
  | error =>
      {| appState := upload; transactions := transactions st;
         categories := categories st; errorMessage := [];
         isStreaming := isStreaming st;
         editingCategoryId := editingCategoryId st;
         editingCategoryName := editingCategoryName st;
         deletingCategoryId := deletingCategoryId st |}
  | _ => st
  end.

Section Categories.
(** [String.prototype.toLowerCase], Unicode case mapping, left open. *)
Variable toLowerCase : jstring → jstring.

(** [handleCancelEditing] *)
Definition handleCancelEditing (st : State) : State :=
  {| appState := appState st; transactions := transactions st;
     categories := categories st; errorMessage := errorMessage st;
     isStreaming := isStreaming st;
     editingCategoryId := None; editingCategoryName := [];
     deletingCategoryId := deletingCategoryId st |}.

(** [categories.some(c => c.name.toLowerCase() === trimmedName.toLowerCase() && c.id !== categoryId)] *)
Definition nameTaken (trimmedName categoryId : jstring) (cs : list Category) : bool :=
  existsb (λ c, bool_decide (toLowerCase (cat_name c) = toLowerCase trimmedName)
                && negb (bool_decide (cat_id c = categoryId))) cs.

(** [handleSaveCategory] *)
Definition handleSaveCategory (categoryId : jstring) (st : State) : State :=
  let trimmedName := trim (editingCategoryName st) in
  if negb (truthy (JString trimmedName)) || nameTaken trimmedName categoryId (categories st)
  then handleCancelEditing st
  else
    match findCategory categoryId (categories st) with
    | None => st
    | Some oldCategory =>
        let oldCategoryName := cat_name oldCategory in
        handleCancelEditing
          {| appState := appState st;
             transactions :=
               (λ t, if isString (categoryOf t) oldCategoryName
                     then withCategory trimmedName t else t) <$> transactions st;
             categories :=
               (λ c, if bool_decide (cat_id c = categoryId)
                     then {| cat_id := cat_id c; cat_name := trimmedName |}
                     else c) <$> categories st;
             errorMessage := errorMessage st; isStreaming := isStreaming st;
             editingCategoryId := editingCategoryId st;
             editingCategoryName := editingCategoryName st;
             deletingCategoryId := deletingCategoryId st |}
    end.

End Categories.

(** The timer callback of [handleDeleteCategory], 300 ms later; [captured]
    is the [categories] of the render in which the handler was called. *)
Definition deleteTimer (captured : list Category) (categoryId : jstring)
    (st : State) : State :=
  let categoryToDelete := findCategory categoryId captured in
  {| appState := appState st;
     transactions :=
       match categoryToDelete with
       | Some c =>
           (λ t, if isString (categoryOf t) (cat_name c)
                 then withCategory Uncategorized t else t) <$> transactions st
       | None => transactions st
       end;
     categories := filter (λ c, cat_id c ≠ categoryId) (categories st);
     errorMessage := errorMessage st; isStreaming := isStreaming st;
     editingCategoryId := editingCategoryId st;
     editingCategoryName := editingCategoryName st;
     deletingCategoryId := None |}.

(** [handleDeleteCategory], up to and including its timer callback. *)
Definition handleDeleteCategory (categoryId : jstring) (st : State) : State :=
  deleteTimer (categories st) categoryId
    {| appState := appState st; transactions := transactions st;
       categories := categories st; errorMessage := errorMessage st;
       isStreaming := isStreaming st;
       editingCategoryId := editingCategoryId st;
       editingCategoryName := editingCategoryName st;
       deletingCategoryId := Some categoryId |}.

(** The three gates of the component's [main] element.  The table is
    handed the store through the filter projection, the identity when no
    filter is set; the filter state is left out. *)
Definition render (st : State) : list Screen :=
  (match appState st with upload => [UploadScreen] | _ => [] end)
  ++ (match appState st with
      | analyzing => [AnalysisScreen (transactions st) (isStreaming st)]
      | _ => []
      end)
  ++ (match appState st with error => [ErrorScreen (errorMessage st)] | _ => [] end).

End App1.

(** ** What the two revisions that restore saved notes share *)

Module Notes.
Import JS Upload.

Section Notes.
(** [createTransactionKey(txData)], the key a note is saved under; it
    prints the binary64 amount and lower-cases the description, and is
    left open.  [None]: it throws, as it does when [description] has no
    [toLowerCase]. *)
Variable createTransactionKey : JsValue → option jstring.
(** [localStorage.getItem]; [None] is [null]. *)
Variable getItem : jstring → option jstring.

(** The body of [try] up to the object literal: the parsed record and the
    value of [savedNote ?? undefined]. *)
Definition accepted (text : jstring) : option (JsValue * JsValue) :=
  txData ← JSON.parse text;
  ok ← guard txData;
  if ok : bool then
    noteKey ← createTransactionKey txData;
    Some (txData, match getItem noteKey with
                  | Some savedNote => JString savedNote
                  | None => JUndefined
                  end)
  else None.

(** [{ ...txData, id: `${Date.now()}-${transactionCount++}`, category: 'Uncategorized', notes: savedNote ?? undefined }] *)
Definition newTransaction (r : JsValue * JsValue) (now : Z) (count : N) : obj :=
  <[js "notes" := r.2]>
    (<[js "category" := JString Uncategorized]>
       (<[js "id" := JString (makeId now count)]> (ownProps r.1))).

End Notes.
End Notes.

(** ** The revision with saved sessions (third in the history) *)

Module AppSessions.
Import JS Upload.

Inductive AppState := init | upload | analyzing | error.

Record State := {
  appState : AppState;
  transactions : list obj;
  categories : list Category;
  errorMessage : jstring;
  isStreaming : bool;
  editingCategoryId : option jstring;
  editingCategoryName : jstring;
}.

Record Loop := {
  buffer : jstring;
  transactionCount : N;
  clockReads : nat;
  store : list obj;
}.

Section Ingest.
Variable clock : nat → Z.
Variable createTransactionKey : JsValue → option jstring.
Variable getItem : jstring → option jstring.
Variable toLowerCase : jstring → jstring.

(** The callback of [lines.flatMap], with the counter it increments. *)
Definition lineStep (acc : list obj * Loop) (line : jstring) : list obj * Loop :=
  let '(newTxs, s) := acc in
  if negb (nonBlank line) then acc
  else
    match Notes.accepted createTransactionKey getItem line with
    | Some r =>
        (newTxs ++ [Notes.newTransaction r (clock (clockReads s)) (transactionCount s)],
         {| buffer := buffer s;
            transactionCount := postIncrement (transactionCount s);
            clockReads := S (clockReads s);
            store := store s |})
    | None => acc
    end.

(** One turn of [for await (const chunk of stream)]. *)
Definition chunkStep (s : Loop) (text : jstring) : Loop :=
  let buffer1 := buffer s ++ text in
  let '(last, lines) := pop (split LF buffer1) in
  let buffer2 := orEmpty last in
  let '(newTxs, s') :=
    foldl lineStep
      ([], {| buffer := buffer2; transactionCount := transactionCount s;
              clockReads := clockReads s; store := store s |})
      lines in
  if bool_decide (0 < length newTxs) then
    {| buffer := buffer s'; transactionCount := transactionCount s';
       clockReads := clockReads s'; store := store s' ++ newTxs |}
  else s'.

Definition start : Loop :=
  {| buffer := []; transactionCount := 0; clockReads := 0; store := [] |}.

Definition streamLoop (texts : list jstring) : Loop := foldl chunkStep start texts.

(** [s.endsWith(suffix)] *)
Definition endsWith (s suffix : jstring) : bool :=
  bool_decide (drop (length s - length suffix) s = suffix).

(** [handleFileChange]: nothing follows the loop inside [try]. *)
Definition handleFileChange (apiKey : bool) (file : option File) (src : Source)
    (st : State) : State :=
  match file with
  | None => st
  | Some f =>
      if negb (bool_decide (file_type f = js "application/pdf"))
         && negb (endsWith (toLowerCase (file_name f)) (js ".pdf"))
      then
        {| appState := appState st; transactions := transactions st;
           categories := categories st;
           errorMessage := js "Please upload a valid PDF file.";
           isStreaming := isStreaming st;
           editingCategoryId := editingCategoryId st;
           editingCategoryName := editingCategoryName st |}
      else
        let failed e txs :=
          {| appState := error; transactions := txs; categories := categories st;
             errorMessage := failureMessage e; isStreaming := false;
             editingCategoryId := editingCategoryId st;
             editingCategoryName := editingCategoryName st |} in
        if negb apiKey then
          failed (ErrorWith (js "API_KEY environment variable not set.")) []
        else
          let s := streamLoop (chunks src) in
          match failure src with
          | Some e => failed e (store s)
          | None =>
              {| appState := analyzing; transactions := store s;
                 categories := categories st; errorMessage := [];
                 isStreaming := false;
                 editingCategoryId := editingCategoryId st;
                 editingCategoryName := editingCategoryName st |}
          end
  end.

End Ingest.

(** [tx.category === categories.find(c => c.id === id)?.name] *)
Definition carries (t : obj) (found : option Category) : bool :=
  match found with
  | Some c => isString (categoryOf t) (cat_name c)
  | None => match categoryOf t with JUndefined => true | _ => false end
  end.

(** [handleDeleteCategory] *)
Definition handleDeleteCategory (id : jstring) (st : State) : State :=
  {| appState := appState st;
     transactions :=
       (λ tx, if carries tx (findCategory id (categories st))
              then withCategory Uncategorized tx else tx) <$> transactions st;
     categories := filter (λ c, cat_id c ≠ id) (categories st);
     errorMessage := errorMessage st; isStreaming := isStreaming st;
     editingCategoryId := editingCategoryId st;
     editingCategoryName := editingCategoryName st |}.

(** [handleSaveCategory]: only the category list is rewritten. *)
Definition handleSaveCategory (id : jstring) (st : State) : State :=
  {| appState := appState st;
     transactions := transactions st;
     categories :=
       (λ c, if bool_decide (cat_id c = id)
             then {| cat_id := cat_id c; cat_name := editingCategoryName st |}
             else c) <$> categories st;
     errorMessage := errorMessage st; isStreaming := isStreaming st;
     editingCategoryId := None;
     editingCategoryName := editingCategoryName st |}.

(** The component's early returns: the spinner, the upload page with the
    error banner, or the table. *)
Definition render (st : State) : list Screen :=
  match appState st with
  | init => [Spinner]
  | upload => [UploadScreen]
  | error => [UploadScreen; ErrorBanner (errorMessage st)]
  | analyzing => [AnalysisScreen (transactions st) (isStreaming st)]
  end.

End AppSessions.

(** ** The revision that keeps the last session in local storage *)

Module AppLastSession.
Import JS Upload.

Inductive AppState := init | upload | analyzing | error.

Record State := {
  appState : AppState;
  transactions : list obj;
  errorMessage : jstring;
  isStreaming : bool;
}.

(** The loop's local variables, [finalTransactions] among them. *)
Record Loop := {
  buffer : jstring;
  transactionCount : N;
  clockReads : nat;
  finalTransactions : list obj;
  store : list obj;
}.

Section Ingest.
Variable clock : nat → Z.
Variable createTransactionKey : JsValue → option jstring.
Variable getItem : jstring → option jstring.

Definition lineStep (acc : list obj * Loop) (line : jstring) : list obj * Loop :=
  let '(newTxs, s) := acc in
  if nonBlank line then
    match Notes.accepted createTransactionKey getItem line with
    | Some r =>
        (newTxs ++ [Notes.newTransaction r (clock (clockReads s)) (transactionCount s)],
         {| buffer := buffer s;
            transactionCount := postIncrement (transactionCount s);
            clockReads := S (clockReads s);
            finalTransactions := finalTransactions s;
            store := store s |})
    | None => acc
    end
  else acc.

(** One turn of the loop: [finalTransactions = [...finalTransactions, ...newTxs];
    setTransactions(finalTransactions)]. *)
Definition chunkStep (s : Loop) (text : jstring) : Loop :=
  let buffer1 := buffer s ++ text in
  let '(last, lines) := pop (split LF buffer1) in
  let buffer2 := orEmpty last in
  let '(newTxs, s') :=
    foldl lineStep
      ([], {| buffer := buffer2; transactionCount := transactionCount s;
              clockReads := clockReads s;
              finalTransactions := finalTransactions s; store := store s |})
      lines in
  if bool_decide (0 < length newTxs) then
    {| buffer := buffer s'; transactionCount := transactionCount s';
       clockReads := clockReads s';
       finalTransactions := finalTransactions s' ++ newTxs;
       store := finalTransactions s' ++ newTxs |}
  else s'.

Definition flush (s : Loop) : Loop :=
  if nonBlank (buffer s) then
    match Notes.accepted createTransactionKey getItem (buffer s) with
    | Some r =>
        {| buffer := buffer s;
           transactionCount := postIncrement (transactionCount s);
           clockReads := S (clockReads s);
           finalTransactions := finalTransactions s;
           store := store s ++
             [Notes.newTransaction r (clock (clockReads s)) (transactionCount s)] |}
    | None => s
    end
  else s.

Definition start : Loop :=
  {| buffer := []; transactionCount := 0; clockReads := 0;
     finalTransactions := []; store := [] |}.

Definition streamLoop (texts : list jstring) : Loop := foldl chunkStep start texts.

(** [handleFileChange] *)
Definition handleFileChange (apiKey : bool) (file : option File) (src : Source)
    (st : State) : State :=
  let rejected :=
    {| appState := error; transactions := transactions st;
       errorMessage := js "Please upload a valid PDF file.";
       isStreaming := isStreaming st |} in
  match file with
  | Some f =>
      if bool_decide (file_type f = js "application/pdf") then
        let failed e txs :=
          {| appState := error; transactions := txs;
             errorMessage := failureMessage e; isStreaming := false |} in
        if negb apiKey then
          failed (ErrorWith (js "API_KEY environment variable not set.")) []
        else
          let s := streamLoop (chunks src) in
          match failure src with
          | Some e => failed e (store s)
          | None =>
              {| appState := analyzing; transactions := store (flush s);
                 errorMessage := []; isStreaming := false |}
          end
      else rejected
  | None => rejected
  end.

End Ingest.

(** The gates of [main], after the early return of the spinner:
    [(appState === 'analyzing' || appState === 'error' && transactions.length > 0)]
    mounts the table. *)
Definition render (st : State) : list Screen :=
  match appState st with
  | init => [Spinner]
  | _ =>
      (match appState st with upload => [UploadScreen] | _ => [] end)
      ++ (if match appState st with
             | analyzing => true
             | error => bool_decide (0 < length (transactions st))
             | _ => false
             end
          then [AnalysisScreen (transactions st) (isStreaming st)] else [])
      ++ (if match appState st with
             | error => bool_decide (length (transactions st) = 0)
             | _ => false
             end
          then [ErrorScreen (errorMessage st)] else [])
  end.

End AppLastSession.

(** ** Vocabulary of the statements *)

Module Lines.
Import JS.

(** The pieces of [s.split('\n')] before the last one, and the last one:
    the lines a text completes and what it leaves unterminated. *)
Definition complete (s : jstring) : list jstring := removelast (split LF s).
Definition carry (s : jstring) : jstring := default [] (last (split LF s)).

(** [lines.join('\n')] *)
Fixpoint joinLines (lines : list jstring) : jstring :=
  match lines with
  | [] => []
  | [l] => l
  | l :: r => l ++ LF :: joinLines r
  end.

End Lines.

Module Ingestion.
Import JS Upload.

(** What the first revision does with one line: the record it accepts,
    if any. *)
Definition acceptedLine (line : jstring) : option JsValue :=
  if nonBlank line then App1.accepted line else None.

(** The transactions made from accepted records, in order, the first of
    them with the [k]-th clock reading and the counter at [c]. *)
Fixpoint assign (clock : nat → Z) (k : nat) (c : N) (ds : list JsValue) : list obj :=
  match ds with
  | [] => []
  | d :: r => App1.newTransaction d (clock k) c :: assign clock (S k) (postIncrement c) r
  end.

(** The loop variables after [n] more records were accepted. *)
Definition advance (n : nat) (s : App1.Loop) : App1.Loop :=
  {| App1.buffer := App1.buffer s;
     App1.transactionCount := Nat.iter n postIncrement (App1.transactionCount s);
     App1.clockReads := App1.clockReads s + n;
     App1.store := App1.store s |}.

(** A transaction without its assigned id. *)
Definition stripId (t : obj) : obj := delete (js "id") t.

(** [t.id] *)
Definition idOf (t : obj) : JsValue := default JUndefined (t !! js "id").

(** The transaction a line yields, without its id. *)
Definition decode (line : jstring) : option obj :=
  (λ d, stripId (App1.newTransaction d 0 0)) <$> acceptedLine line.

(** [t.k] of a record or a stored transaction [t]. *)
Definition field (t : obj) (k : string) : JsValue := default JUndefined (t !! js k).

End Ingestion.

(** ** What the specification says of a stored transaction *)

Module Claimed.
Import JS Upload Ingestion.


(** The fields the data model lists. *)
Definition documentedFields : gset jstring :=
  list_to_set (js <$> ["id"; "date"; "description"; "amount"; "type"; "category"; "notes"]).

End Claimed.

(** ** Sample inputs *)

Module Samples.
Import JS Upload.

Definition pdf : File :=
  {| file_type := js "application/pdf"; file_name := js "statement.pdf" |}.

Definition coffee : jstring :=
  jsq "{'date':'2024-01-05','description':'Coffee','amount':5.50,'type':'debit'}".
Definition salary : jstring :=
  jsq "{'date':'2024-01-06','description':'Salary','amount':2000,'type':'credit'}".

(** The two records, cut inside a number and inside a key. *)
Definition threeChunks : list jstring :=
  [ jsq "{'date':'2024-01-05','description':'Coffee','amount':5.";
    jsq "50,'type':'debit'}" ++ [LF] ++ jsq "{'date':'2024-01-06','desc";
    jsq "ription':'Salary','amount':2000,'type':'credit'}" ++ [LF] ].

(** A clock that does not advance. *)
Definition frozen : nat → Z := λ _, 1700000000000%Z.

Definition idle : App1.State :=
  {| App1.appState := App1.upload; App1.transactions := [];
     App1.categories := []; App1.errorMessage := [];
     App1.isStreaming := false; App1.editingCategoryId := None;
     App1.editingCategoryName := []; App1.deletingCategoryId := None |}.

(** Lines the decoder has to skip. *)
Definition blank : jstring := js "   ".
Definition truncated : jstring := jsq "{'date':'2024-01-07','descr".
Definition noDescription : jstring :=
  jsq "{'date':'2024-01-07','amount':3,'type':'debit'}".
Definition quotedAmount : jstring :=
  jsq "{'date':'2024-01-07','description':'Tea','amount':'3.00','type':'debit'}".
Definition emptyDate : jstring :=
  jsq "{'date':'','description':'Coffee','amount':5.50,'type':'debit'}".

(** Lines the decoder takes although they are not of the documented
    shape. *)
Definition oddShapes : jstring :=
  jsq "{'date':20240105,'description':['x'],'amount':1e999,'type':'transfer'}".
Definition withMemo : jstring :=
  jsq "{'date':'2024-01-05','description':'Coffee','amount':5.50,'type':'debit','memo':'card 1234'}".

(** The record a line parses to ([null] if it does not parse). *)
Definition wire (line : jstring) : JsValue := default JNull (JSON.parse line).

(** A stream with valid and invalid lines, cut at an arbitrary place. *)
Definition mixedLines : list jstring :=
  [coffee; blank; truncated; noDescription; quotedAmount; []; salary; []].
Definition mixedChunks : list jstring :=
  [take 100 (Lines.joinLines mixedLines); drop 100 (Lines.joinLines mixedLines)].

(** What the first revision stores for one line ended by a newline,
    with the frozen clock. *)
Definition storedFor (line : jstring) : list obj :=
  App1.transactions
    (App1.handleFileChange frozen true (Some pdf)
       {| chunks := [line ++ [LF]]; failure := None |} idle).

(** ASCII lower-casing, what [toLowerCase] does on ASCII strings. *)
Definition asciiLower (s : jstring) : jstring :=
  (λ c, if ((65 <=? c) && (c <=? 90))%N then (c + 32)%N else c) <$> s.

Definition groceriesTx : obj :=
  withCategory (js "Groceries") (App1.newTransaction (default JNull (JSON.parse coffee)) 1700000000000 0).
Definition rentTx : obj :=
  withCategory (js "Rent") (App1.newTransaction (default JNull (JSON.parse salary)) 1700000000000 1).

Definition defaultCategories : list Category :=
  [ {| cat_id := js "1"; cat_name := js "Groceries" |};
    {| cat_id := js "2"; cat_name := js "Utilities" |};
    {| cat_id := js "3"; cat_name := js "Rent" |};
    {| cat_id := js "4"; cat_name := js "Entertainment" |} ].

(** The default categories of the revision with saved sessions. *)
Definition sessionsCategories : list Category :=
  defaultCategories ++
  [ {| cat_id := js "5"; cat_name := js "Transport" |};
    {| cat_id := js "6"; cat_name := js "Health" |};
    {| cat_id := js "7"; cat_name := js "Dining Out" |};
    {| cat_id := js "8"; cat_name := js "Uncategorized" |} ].

(** Two categorized transactions, the category with id 1 being edited
    to [Food]. *)
Definition renaming : App1.State :=
  {| App1.appState := App1.analyzing;
     App1.transactions := [groceriesTx; rentTx];
     App1.categories := defaultCategories; App1.errorMessage := [];
     App1.isStreaming := false; App1.editingCategoryId := Some (js "1");
     App1.editingCategoryName := js "Food"; App1.deletingCategoryId := None |}.

Definition renamingSessions : AppSessions.State :=
  {| AppSessions.appState := AppSessions.analyzing;
     AppSessions.transactions := [groceriesTx; rentTx];
     AppSessions.categories := sessionsCategories; AppSessions.errorMessage := [];
     AppSessions.isStreaming := false; AppSessions.editingCategoryId := Some (js "1");
     AppSessions.editingCategoryName := js "Food" |}.

Definition idleSessions : AppSessions.State :=
  {| AppSessions.appState := AppSessions.upload;
     AppSessions.transactions := [];
     AppSessions.categories := sessionsCategories; AppSessions.errorMessage := [];
     AppSessions.isStreaming := false; AppSessions.editingCategoryId := None;
     AppSessions.editingCategoryName := [] |}.

Definition idleLastSession : AppLastSession.State :=
  {| AppLastSession.appState := AppLastSession.upload;
     AppLastSession.transactions := [];
     AppLastSession.errorMessage := [];
     AppLastSession.isStreaming := false |}.

(** A stream that delivers one complete record and then fails. *)
Definition broken : Source :=
  {| chunks := [coffee ++ [LF] ++ jsq "{'date':'2024-01-06','desc"];
     failure := Some (ErrorWith (js "network down")) |}.

End Samples.

(** ** More handlers of the first revision *)

Module App1More.
Import JS Upload Ingestion.

(** [setTransactions(txs)] and [setCategories(cs)] *)
Definition setTransactions (txs : list obj) (st : App1.State) : App1.State :=
  {| App1.appState := App1.appState st; App1.transactions := txs;
     App1.categories := App1.categories st;
     App1.errorMessage := App1.errorMessage st;
     App1.isStreaming := App1.isStreaming st;
     App1.editingCategoryId := App1.editingCategoryId st;
     App1.editingCategoryName := App1.editingCategoryName st;
     App1.deletingCategoryId := App1.deletingCategoryId st |}.

Definition setCategories (cs : list Category) (st : App1.State) : App1.State :=
  {| App1.appState := App1.appState st; App1.transactions := App1.transactions st;
     App1.categories := cs;
     App1.errorMessage := App1.errorMessage st;
     App1.isStreaming := App1.isStreaming st;
     App1.editingCategoryId := App1.editingCategoryId st;
     App1.editingCategoryName := App1.editingCategoryName st;
     App1.deletingCategoryId := App1.deletingCategoryId st |}.

(** [t.id === transactionId] for a string [transactionId]. *)
Definition hasId (transactionId : jstring) (t : obj) : bool :=
  isString (idOf t) transactionId.

(** [handleTransactionCategoryChange] *)
Definition handleTransactionCategoryChange (transactionId newCategory : jstring)
    (st : App1.State) : App1.State :=
  setTransactions
    ((λ t, if hasId transactionId t then withCategory newCategory t else t)
       <$> App1.transactions st) st.

(** The state of the note editor: [editingNoteId] ([None] is [null]) and
    [editingNoteText], which holds what [tx.notes || ''] evaluates to. *)
Record NoteEditor := { editingNoteId : option JsValue; editingNoteText : JsValue }.

(** [handleStartEditingNote] *)
Definition handleStartEditingNote (tx : obj) : NoteEditor :=
  {| editingNoteId := Some (idOf tx);
     editingNoteText :=
       if truthy (field tx "notes") then field tx "notes" else JString [] |}.

(** [handleCancelEditingNote] *)
Definition handleCancelEditingNote : NoteEditor :=
  {| editingNoteId := None; editingNoteText := JString [] |}.

(** The change handler of the text area. *)
Definition typeNote (text : jstring) (ed : NoteEditor) : NoteEditor :=
  {| editingNoteId := editingNoteId ed; editingNoteText := JString text |}.

(** [handleSaveNote].  [None]: [editingNoteText] is not a string and has
    no [trim], a [TypeError], provided some transaction has the id (the
    callback of [map] is what calls [trim]). *)
Definition handleSaveNote (transactionId : jstring) (ed : NoteEditor)
    (st : App1.State) : option (NoteEditor * App1.State) :=
  match editingNoteText ed with
  | JString text =>
      Some (handleCancelEditingNote,
            setTransactions
              ((λ t, if hasId transactionId t
                     then <[js "notes" := JString (trim text)]> t else t)
                 <$> App1.transactions st) st)
  | _ =>
      if existsb (hasId transactionId) (App1.transactions st) then None
      else Some (handleCancelEditingNote, st)
  end.

(** [resetApp]; the filters it clears are not part of the state kept
    here. *)
Definition resetApp (st : App1.State) : App1.State :=
  {| App1.appState := App1.upload; App1.transactions := [];
     App1.categories := App1.categories st;
     App1.errorMessage := [];
     App1.isStreaming := App1.isStreaming st;
     App1.editingCategoryId := App1.editingCategoryId st;
     App1.editingCategoryName := App1.editingCategoryName st;
     App1.deletingCategoryId := App1.deletingCategoryId st |}.

(** [handleStartEditingCategory] followed by typing [name] in the input. *)
Definition editCategoryName (categoryId name : jstring) (st : App1.State) : App1.State :=
  {| App1.appState := App1.appState st; App1.transactions := App1.transactions st;
     App1.categories := App1.categories st;
     App1.errorMessage := App1.errorMessage st;
     App1.isStreaming := App1.isStreaming st;
     App1.editingCategoryId := Some categoryId;
     App1.editingCategoryName := name;
     App1.deletingCategoryId := App1.deletingCategoryId st |}.

Section Categories.
Variable toLowerCase : jstring → jstring.

(** [categories.some(c => c.name.toLowerCase() === newCategoryName.trim().toLowerCase())] *)
Definition nameInUse (name : jstring) (cs : list Category) : bool :=
  existsb (λ c, bool_decide (toLowerCase (cat_name c) = toLowerCase name)) cs.

(** [handleAddCategory]: the new value of [newCategoryName] and the
    state; [now] is what [Date.now()] returns. *)
Definition handleAddCategory (now : Z) (newCategoryName : jstring) (st : App1.State)
  : jstring * App1.State :=
  if truthy (JString (trim newCategoryName))
     && negb (nameInUse (trim newCategoryName) (App1.categories st))
  then ([], setCategories
              (App1.categories st
               ++ [{| cat_id := showZ now; cat_name := trim newCategoryName |}]) st)
  else (newCategoryName, st).

(** What the user can do to the categories and the transactions. *)
Inductive Event :=
  | Upload (clock : nat → Z) (apiKey : bool) (file : option File) (src : Source)
  | AddCategory (now : Z) (name : jstring)
  | SaveCategory (categoryId name : jstring)
  | DeleteCategory (categoryId : jstring)
  | SetCategory (transactionId newCategory : jstring)
  | ResetApp.

Definition step (st : App1.State) (e : Event) : App1.State :=
  match e with
  | Upload clock apiKey file src => App1.handleFileChange clock apiKey file src st
  | AddCategory now name => (handleAddCategory now name st).2
  | SaveCategory categoryId name =>
      App1.handleSaveCategory toLowerCase categoryId (editCategoryName categoryId name st)
  | DeleteCategory categoryId => App1.handleDeleteCategory categoryId st
  | SetCategory transactionId newCategory =>
      handleTransactionCategoryChange transactionId newCategory st
  | ResetApp => resetApp st
  end.


Fixpoint run (st : App1.State) (es : list Event) : App1.State :=
  match es with
  | [] => st
  | e :: r => run (step st e) r
  end.



End Categories.
End App1More.

(** ** The store edited while a stream is read *)

Module Streaming.
Import JS Upload.

(** The [transactions] state replaced by [txs] between two chunks, as an
    edit by the user does, in the first revision and in the revision
    that keeps the last session. *)
Definition editStore (txs : list obj) (s : App1.Loop) : App1.Loop :=
  {| App1.buffer := App1.buffer s;
     App1.transactionCount := App1.transactionCount s;
     App1.clockReads := App1.clockReads s;
     App1.store := txs |}.


End Streaming.

(** ** Note keys and the saved notes of the later revisions *)

Module NoteKey.
Import JS Upload Ingestion.

Section NoteKey.
(** [String.prototype.toLowerCase] and the printing of a Number
    ([Number::toString]), left open. *)
Variable toLowerCase : jstring → jstring.
Variable showNumber : decimal → jstring.

(** [`${v}`] for a value read by [JSON.parse]: [ToString].  An array
    prints as [join(',')] does, [null] and [undefined] elements as empty
    strings.  A plain object prints as [[object Object]] unless it has a
    key [toString] of its own, which is not callable and makes the
    conversion throw ([None]). *)
Fixpoint toStr (v : JsValue) : option jstring :=
  match v with
  | JUndefined => Some (js "undefined")
  | JNull => Some (js "null")
  | JBool true => Some (js "true")
  | JBool false => Some (js "false")
  | JNumber d => Some (showNumber d)
  | JString s => Some s
  | JArray l =>
      (fix joinElements (l : list JsValue) : option jstring :=
         let one e := match e with
                      | JUndefined | JNull => Some []
                      | _ => toStr e
                      end in
         match l with
         | [] => Some []
         | [e] => one e
         | e :: r =>
             a ← one e; b ← joinElements r; Some (a ++ js "," ++ b)
         end) l
  | JObject o =>
      if bool_decide (is_Some (o !! js "toString")) then None
      else Some (js "[object Object]")
  end.

(** [/[^a-z0-9]/] does not match. *)
Definition isLowerAlnum (c : N) : bool :=
  ((97 <=? c) && (c <=? 122) || (48 <=? c) && (c <=? 57))%N.

(** [description.toLowerCase().replace(/[^a-z0-9]/g, '').slice(0, 50)] *)
Definition normalize (description : jstring) : jstring :=
  take 50 (List.filter isLowerAlnum (toLowerCase description)).

(** [createTransactionKey(tx)].  [None]: it throws, because
    [tx.description] is not a string and has no [toLowerCase], or because
    a field of the template does not print. *)
Definition createTransactionKey (tx : JsValue) : option jstring :=
  match getField tx (js "description") with
  | Some (JString description) =>
      let normalizedDescription := normalize description in
      date ← getField tx (js "date") ≫= toStr;
      amount ← getField tx (js "amount") ≫= toStr;
      type ← getField tx (js "type") ≫= toStr;
      Some (js "tx_note::" ++ date ++ js "_" ++ normalizedDescription ++ js "_"
            ++ amount ++ js "_" ++ type)
  | _ => None
  end.

(** [note || undefined] *)
Definition noteOrUndefined (note : jstring) : JsValue :=
  match note with [] => JUndefined | _ => JString note end.

(** [localStorage] as the map of its items; [setItem] and [removeItem]
    are taken to succeed. *)
Definition saveItem (noteKey note : jstring) (items : gmap jstring jstring)
  : gmap jstring jstring :=
  match note with
  | [] => delete noteKey items
  | _ => <[noteKey := note]> items
  end.

(** [t.id === txId] *)
Definition hasId (txId : jstring) (t : obj) : bool := isString (idOf t) txId.

(** [handleSaveNote] of the revision with saved sessions: the items of
    [localStorage] and the state it leaves ([editingTransactionForNote]
    is not kept here).  [None]: [createTransactionKey] threw. *)
Definition handleSaveNote (txId note : jstring) (items : gmap jstring jstring)
    (st : AppSessions.State) : option (gmap jstring jstring * AppSessions.State) :=
  match List.find (hasId txId) (AppSessions.transactions st) with
  | Some transaction =>
      noteKey ← createTransactionKey (JObject transaction);
      Some (saveItem noteKey note items,
            {| AppSessions.appState := AppSessions.appState st;
               AppSessions.transactions :=
                 (λ tx, if hasId txId tx
                        then <[js "notes" := noteOrUndefined note]> tx else tx)
                   <$> AppSessions.transactions st;
               AppSessions.categories := AppSessions.categories st;
               AppSessions.errorMessage := AppSessions.errorMessage st;
               AppSessions.isStreaming := AppSessions.isStreaming st;
               AppSessions.editingCategoryId := AppSessions.editingCategoryId st;
               AppSessions.editingCategoryName := AppSessions.editingCategoryName st |})
  | None => Some (items, st)
  end.


End NoteKey.
End NoteKey.

(** ** What the revisions with notes do with one line *)

Module NoteIngestion.
Import JS Upload.

Section NoteIngestion.
Variable createTransactionKey : JsValue → option jstring.
Variable getItem : jstring → option jstring.

(** The record and the note the later revisions take from one line, if
    any. *)
Definition acceptedNoteLine (line : jstring) : option (JsValue * JsValue) :=
  if nonBlank line then Notes.accepted createTransactionKey getItem line else None.

End NoteIngestion.

(** The transactions made from accepted records and their notes, in
    order, the first of them with the [k]-th clock reading and the
    counter at [c]. *)
Fixpoint assignNotes (clock : nat → Z) (k : nat) (c : N)
    (rs : list (JsValue * JsValue)) : list obj :=
  match rs with
  | [] => []
  | r :: rest =>
      Notes.newTransaction r (clock k) c :: assignNotes clock (S k) (postIncrement c) rest
  end.

(** [localStorage.getItem] on a store of items. *)
Definition getItemOf (items : gmap jstring jstring) : jstring → option jstring :=
  λ key, items !! key.


End NoteIngestion.

(** ** Saved sessions (the third revision) *)

Module Sessions.
Import JS Upload.

(** A session as [handleSaveSession] makes it. *)
Record Session := {
  session_id : jstring;
  session_name : jstring;
  timestamp : Z;
  session_transactions : list obj;
  session_categories : list Category;
}.

(** [sort((a, b) => b.timestamp - a.timestamp)]: the sort is stable, so
    with this comparator its result is the one of inserting each element,
    from the last to the first, before the first element that is not
    newer. *)
Fixpoint insertNewest (x : Session) (l : list Session) : list Session :=
  match l with
  | [] => [x]
  | y :: r => if (timestamp x <? timestamp y)%Z then y :: insertNewest x r else x :: l
  end.

Definition sortNewestFirst (l : list Session) : list Session := foldr insertNewest [] l.

Section Sessions.
Variable toLowerCase : jstring → jstring.

(** [s.name.toLowerCase() !== name.toLowerCase()] *)
Definition otherName (name : jstring) (s : Session) : bool :=
  negb (bool_decide (toLowerCase (session_name s) = toLowerCase name)).

(** [handleSaveSession(name)]; [now1] and [now2] are the two readings of
    the clock. *)
Definition handleSaveSession (now1 now2 : Z) (name : jstring)
    (st : AppSessions.State) (sessions : list Session) : list Session :=
  let newSession :=
    {| session_id := showZ now1; session_name := name; timestamp := now2;
       session_transactions := AppSessions.transactions st;
       session_categories := AppSessions.categories st |} in
  sortNewestFirst (List.filter (otherName name) sessions ++ [newSession]).

End Sessions.

(** [handleLoadSession(sessionId)] *)
Definition handleLoadSession (sessionId : jstring) (sessions : list Session)
    (st : AppSessions.State) : AppSessions.State :=
  match List.find (λ s, bool_decide (session_id s = sessionId)) sessions with
  | Some session =>
      {| AppSessions.appState := AppSessions.analyzing;
         AppSessions.transactions := session_transactions session;
         AppSessions.categories := session_categories session;
         AppSessions.errorMessage := AppSessions.errorMessage st;
         AppSessions.isStreaming := AppSessions.isStreaming st;
         AppSessions.editingCategoryId := AppSessions.editingCategoryId st;
         AppSessions.editingCategoryName := AppSessions.editingCategoryName st |}
  | None => st
  end.

(** [handleDeleteSession(sessionId)]; [confirmed] is the answer to
    [window.confirm]. *)
Definition handleDeleteSession (confirmed : bool) (sessionId : jstring)
    (sessions : list Session) : list Session :=
  if confirmed
  then List.filter (λ s, negb (bool_decide (session_id s = sessionId))) sessions
  else sessions.

(** What the user does with the list of sessions. *)
Inductive Event :=
  | Save (now1 now2 : Z) (name : jstring) (st : AppSessions.State)
  | Delete (confirmed : bool) (sessionId : jstring).

Definition step (toLowerCase : jstring → jstring) (sessions : list Session)
    (e : Event) : list Session :=
  match e with
  | Save now1 now2 name st => handleSaveSession toLowerCase now1 now2 name st sessions
  | Delete confirmed sessionId => handleDeleteSession confirmed sessionId sessions
  end.

Definition run (toLowerCase : jstring → jstring) (sessions : list Session)
    (es : list Event) : list Session :=
  foldl (step toLowerCase) sessions es.

(** Newest first. *)
Fixpoint newestFirst (sessions : list Session) : Prop :=
  match sessions with
  | [] => True
  | s :: older =>
      Forall (λ o, (timestamp o ≤ timestamp s)%Z) older ∧ newestFirst older
  end.

(** No two sessions with the same name, whatever the case of its
    letters. *)
Definition namedApart (toLowerCase : jstring → jstring) (sessions : list Session) : Prop :=
  NoDup ((λ s, toLowerCase (session_name s)) <$> sessions).

End Sessions.

(** ** Suggested categories (the third revision) *)

Module Suggest.
Import JS Upload Ingestion.

(** [handleUpdateTransactionCategory] *)
Definition handleUpdateTransactionCategory (id category : jstring)
    (st : AppSessions.State) : AppSessions.State :=
  {| AppSessions.appState := AppSessions.appState st;
     AppSessions.transactions :=
       (λ tx, if NoteKey.hasId id tx then withCategory category tx else tx)
         <$> AppSessions.transactions st;
     AppSessions.categories := AppSessions.categories st;
     AppSessions.errorMessage := AppSessions.errorMessage st;
     AppSessions.isStreaming := AppSessions.isStreaming st;
     AppSessions.editingCategoryId := AppSessions.editingCategoryId st;
     AppSessions.editingCategoryName := AppSessions.editingCategoryName st |}.

(** [categories.some(c => c.name === suggestedCategory)] *)
Definition listed (suggestedCategory : jstring) (categories : list Category) : bool :=
  existsb (λ c, bool_decide (cat_name c = suggestedCategory)) categories.

Section Suggest.
Variable showNumber : decimal → jstring.

(** [handleSuggestCategory(txId)], with the request and its answer in one
    step.  [reply] is [response.text], [None] when the request throws or
    the response has no text; the prompt prints the description, which can
    throw as well.  Whatever is thrown is logged and dropped. *)
Definition handleSuggestCategory (apiKey : bool) (reply : option jstring)
    (txId : jstring) (st : AppSessions.State) : AppSessions.State :=
  match List.find (NoteKey.hasId txId) (AppSessions.transactions st) with
  | None => st
  | Some transaction =>
      if bool_decide (length (AppSessions.categories st) = 0) then st
      else if negb apiKey then st
      else
        match NoteKey.toStr showNumber (field transaction "description") with
        | None => st
        | Some _ =>
            match reply with
            | None => st
            | Some text =>
                let suggestedCategory := trim text in
                if listed suggestedCategory (AppSessions.categories st)
                then handleUpdateTransactionCategory txId suggestedCategory st
                else st
            end
        end
  end.

End Suggest.
End Suggest.

(** ** Selection and bulk categories (the second revision)

    The handlers read and write the transactions and the selection only;
    the other fields of the state are carried as in the first revision. *)

Module Bulk.
Import JS Upload Ingestion App1More.

(** [selectedTransactionIds], a [Set] of the ids of transactions, which
    are strings. *)
Definition Selection := gset jstring.

(** [handleSelectTransaction] *)
Definition handleSelectTransaction (transactionId : jstring) (checked : bool)
    (selectedTransactionIds : Selection) : Selection :=
  if checked then {[ transactionId ]} ∪ selectedTransactionIds
  else selectedTransactionIds ∖ {[ transactionId ]}.

(** [tx.id], when it is a string. *)
Definition stringId (tx : obj) : option jstring :=
  match idOf tx with JString s => Some s | _ => None end.

(** [handleSelectAllTransactions], on the filtered transactions. *)
Definition handleSelectAllTransactions (checked : bool)
    (filteredTransactions : list obj) : Selection :=
  if checked then list_to_set (omap stringId filteredTransactions) else ∅.

(** [selectedTransactionIds.has(tx.id)] *)
Definition selected (selectedTransactionIds : Selection) (tx : obj) : bool :=
  match stringId tx with
  | Some s => bool_decide (s ∈ selectedTransactionIds)
  | None => false
  end.

(** [handleApplyBulkCategory]: the selection and the state it leaves. *)
Definition handleApplyBulkCategory (category : jstring)
    (selectedTransactionIds : Selection) (st : App1.State) : Selection * App1.State :=
  (∅,
   setTransactions
     ((λ tx, if selected selectedTransactionIds tx then withCategory category tx else tx)
        <$> App1.transactions st) st).

End Bulk.

(** ** More sample inputs *)

Module Samples2.
Import JS Upload Ingestion Samples App1More.


(** A printer of Numbers for the examples: the shortest decimal of a
    literal with few digits, as binary64 prints it back ([5.50] as [5.5],
    [2000] as [2000]). *)
Fixpoint stripZeros (n : nat) (m e : Z) : Z * Z :=
  match n with
  | 0 => (m, e)
  | S n' =>
      if ((e <? 0) && (m mod 10 =? 0))%Z then stripZeros n' (m / 10)%Z (e + 1)%Z
      else (m, e)
  end.

Definition showShort (d : decimal) : jstring :=
  let '(m, e) := stripZeros (Z.to_nat (- exp10 d)) (mant d) (exp10 d) in
  if (0 <=? e)%Z then showZ (m * 10 ^ e)
  else
    let p := (10 ^ (- e))%Z in
    let fraction := showZ (Z.abs m mod p) in
    (if (m <? 0)%Z then js "-" else [])
    ++ showZ (Z.abs m / p) ++ js "."
    ++ replicate (Z.to_nat (- e) - length fraction) 48%N ++ fraction.

Definition noteKeyOf : JsValue → option jstring :=
  NoteKey.createTransactionKey asciiLower showShort.

(** The two records and a third one that no newline ends. *)
Definition tea : jstring :=
  jsq "{'date':'2024-01-07','description':'Tea','amount':3,'type':'debit'}".
Definition openEnded : list jstring := threeChunks ++ [tea].
Definition openEndedRecut : list jstring :=
  [coffee ++ [LF] ++ salary; [LF] ++ tea].

(** The notes in local storage: one for the coffee. *)
Definition savedNotes : gmap jstring jstring :=
  {[ js "tx_note::2024-01-05_coffee_5.5_debit" := js "team breakfast" ]}.

(** Saving and deleting sessions. *)
Definition firstSaves : list Sessions.Event :=
  [ Sessions.Save 1700000001000 1700000001000 (js "January") renamingSessions;
    Sessions.Save 1700000002000 1700000002001 (js "february") idleSessions ].
Definition moreSaves : list Sessions.Event :=
  [ Sessions.Save 1700000003000 1700000003000 (js "JANUARY") idleSessions;
    Sessions.Delete false (js "1700000002000");
    Sessions.Save 1700000000500 1700000000500 (js "March") renamingSessions;
    Sessions.Delete true (js "1700000002000") ].

End Samples2.

(** ** The built-ins on small inputs *)

Section Examples.
Import JS Upload Lines Ingestion Samples.

Example split_empty : split LF [] = [[]].
Proof. reflexivity. Qed.

Example split_trailing_newline : split LF (js "a" ++ [LF]) = [js "a"; []].
Proof. reflexivity. Qed.

Example split_two_lines : split LF (js "ab" ++ [LF] ++ js "c") = [js "ab"; js "c"].
Proof. reflexivity. Qed.

Example trim_both_ends : trim ([9; 32] ++ js "a b" ++ [13; 160])%N = js "a b".
Proof. reflexivity. Qed.

Example parse_scalars :
  JSON.parse (js "-12.50e1") = Some (JNumber (Dec (-1250) (-1)))
  ∧ JSON.parse (js " true ") = Some (JBool true)
  ∧ JSON.parse (js "null") = Some JNull
  ∧ JSON.parse (jsq "'aA\n'") = Some (JString [97; 65; 10]%N).
Proof. by vm_compute. Qed.

Example parse_nested :
  JSON.parse (jsq "[1, {'k': [true, []]}, {}]")
  = Some (JArray [JNumber (Dec 1 0);
                  JObject {[ js "k" := JArray [JBool true; JArray []] ]};
                  JObject ∅]).
Proof. vm_compute. reflexivity. Qed.

Example parse_repeated_key :
  JSON.parse (jsq "{'a':1,'a':2}") = Some (JObject {[ js "a" := JNumber (Dec 2 0) ]}).
Proof. vm_compute. reflexivity. Qed.

Example parse_rejects :
  Forall (λ s, JSON.parse s = None)
    [ []; js "01"; js "1."; js ".5"; js "+1"; js "-"; js "1e"; js "nul"; js "True";
      js "1 2"; jsq "[1,]"; jsq "{'a':1,}"; jsq "{'a' 1}"; jsq "{a:1}"; jsq "'a";
      jsq "'\x'"; jsq "[1}"; truncated; [160%N] ++ coffee ].
Proof. repeat constructor. Qed.

Example numbers_at_the_edges :
  truthy (JNumber (Dec 5 (-324))) = true
  ∧ truthy (JNumber (Dec 1 (-400))) = false
  ∧ truthy (JNumber (Dec 0 7)) = false
  ∧ isFinite (JNumber (Dec 17976931348623157 292)) = true
  ∧ isFinite (JNumber (Dec 1 999)) = false.
Proof. by vm_compute. Qed.

Example guard_of_non_objects :
  guard JNull = None
  ∧ guard (JArray [JNumber (Dec 1 0)]) = Some false
  ∧ guard (JString (js "date")) = Some false.
Proof. done. Qed.

Example makeId_sample : makeId 1700000000000 12 = js "1700000000000-12".
Proof. reflexivity. Qed.

(** The scenario of the specification: two records over three chunks. *)
Example two_records_over_three_chunks :
  let st' := App1.handleFileChange frozen true (Some pdf)
               {| chunks := threeChunks; failure := None |} idle in
  (λ t, (field t "date", field t "description", field t "amount",
         field t "type", field t "category", field t "id"))
    <$> App1.transactions st'
  = [ (JString (js "2024-01-05"), JString (js "Coffee"), JNumber (Dec 550 (-2)),
       JString (js "debit"), JString (js "Uncategorized"),
       JString (js "1700000000000-0"));
      (JString (js "2024-01-06"), JString (js "Salary"), JNumber (Dec 2000 0),
       JString (js "credit"), JString (js "Uncategorized"),
       JString (js "1700000000000-1")) ].
Proof. vm_compute. reflexivity. Qed.

End Examples.

(** ** Splitting a text that arrives in pieces *)

Section SplitFacts.
Import JS Lines.

Lemma split_not_nil sep s : split sep s ≠ [].
Proof. destruct s as [|c r]; simpl; [done|]. destruct (c =? sep)%N; [done|]. by destruct (split sep r). Qed.

Lemma split_complete_carry s : split LF s = complete s ++ [carry s].
Proof.
  unfold complete, carry.
  destruct (last (split LF s)) as [b|] eqn:E.
  - apply last_Some in E as [l' E]. rewrite E. simpl. by rewrite removelast_last.
  - apply last_None in E. by destruct (split_not_nil LF s).
Qed.

Lemma split_no_sep sep s : sep ∉ s → split sep s = [s].
Proof.
  induction s as [|c r IH]; intros H; simpl; [done|].
  apply not_elem_of_cons in H as [Hc Hr].
  destruct (N.eqb_spec c sep) as [->|_]; [done|]. by rewrite IH.
Qed.

Lemma split_app sep a b :
  split sep (a ++ b) =
    removelast (split sep a) ++
      match split sep b with
      | h :: t => (default [] (last (split sep a)) ++ h) :: t
      | [] => []
      end.
Proof.
  induction a as [|c r IH]; simpl.
  - by destruct (split sep b) eqn:E; [destruct (split_not_nil sep b)|].
  - pose proof (split_not_nil sep r) as Hr.
    destruct (c =? sep)%N.
    + rewrite IH. destruct (split sep r) as [|h t]; [done|].
      by rewrite last_cons_cons.
    + rewrite IH. destruct (split sep r) as [|h t]; [done|].
      destruct t as [|h' t'].
      * pose proof (split_not_nil sep b). simpl. by destruct (split sep b).
      * by rewrite !last_cons_cons.
Qed.

Lemma carry_no_LF s : LF ∉ carry s.
Proof.
  unfold carry. induction s as [|c r IH]; simpl; [by apply not_elem_of_nil|].
  destruct (N.eqb_spec c LF) as [->|Hne].
  - rewrite last_cons. destruct (last (split LF r)); [done|]. simpl. by apply not_elem_of_nil.
  - destruct (split LF r) as [|h t] eqn:E; [by destruct (split_not_nil LF r)|].
    destruct t as [|h' t']; simpl in *.
    + apply not_elem_of_cons. split; [done|]. done.
    + done.
Qed.

Lemma split_app_carry a b : split LF (a ++ b) = complete a ++ split LF (carry a ++ b).
Proof.
  rewrite (split_app LF a b), (split_app LF (carry a) b).
  rewrite (split_no_sep LF (carry a)) by apply carry_no_LF. done.
Qed.

Lemma complete_app a b : complete (a ++ b) = complete a ++ complete (carry a ++ b).
Proof.
  unfold complete at 1 3. rewrite split_app_carry.
  apply removelast_app, split_not_nil.
Qed.

Lemma carry_app a b : carry (a ++ b) = carry (carry a ++ b).
Proof.
  unfold carry at 1 2. rewrite split_app_carry.
  rewrite (split_complete_carry (carry a ++ b)) at 1.
  rewrite app_assoc, last_snoc. simpl.
  by rewrite (split_complete_carry (carry a ++ b)) at 1; rewrite last_snoc.
Qed.

Lemma complete_nil : complete [] = [].
Proof. done. Qed.

Lemma carry_nil : carry [] = [].
Proof. done. Qed.

Lemma split_joinLines lines :
  lines ≠ [] → Forall (λ l, LF ∉ l) lines → split LF (joinLines lines) = lines.
Proof.
  induction lines as [|l r IH]; [done|]. intros _ H.
  apply Forall_cons in H as [Hl Hr].
  destruct r as [|l' r'].
  - simpl. by apply split_no_sep.
  - change (joinLines (l :: l' :: r')) with (l ++ [LF] ++ joinLines (l' :: r')).
    specialize (IH ltac:(done) Hr).
    remember (joinLines (l' :: r')) as rest.
    rewrite split_app, (split_no_sep LF l Hl). simpl.
    by rewrite IH, app_nil_r.
Qed.

End SplitFacts.


(** ** The streaming loop of the first revision *)

Section LoopFacts.
Import JS Upload Lines Ingestion.
Variable clock : nat → Z.

Lemma orEmpty_Some s : orEmpty (Some s) = s.
Proof. by destruct s. Qed.

Lemma assign_app k c d1 d2 :
  assign clock k c (d1 ++ d2) =
    assign clock k c d1
    ++ assign clock (k + length d1) (Nat.iter (length d1) postIncrement c) d2.
Proof.
  revert k c. induction d1 as [|d r IH]; intros k c; simpl.
  - by rewrite Nat.add_0_r.
  - rewrite IH, Nat.iter_swap. do 3 f_equal. lia.
Qed.

Lemma assign_length k c ds : length (assign clock k c ds) = length ds.
Proof. revert k c. induction ds; intros; simpl; [done|]. by rewrite IHds. Qed.

Lemma advance_advance n m s : advance n (advance m s) = advance (m + n) s.
Proof.
  unfold advance; simpl. f_equal; [|lia].
  by rewrite Nat.add_comm, Nat.iter_add.
Qed.

Lemma lineStep_acceptedLine acc s line :
  App1.lineStep clock (acc, s) line =
    match acceptedLine line with
    | Some d =>
        (acc ++ [App1.newTransaction d (clock (App1.clockReads s)) (App1.transactionCount s)],
         advance 1 s)
    | None => (acc, s)
    end.
Proof.
  unfold App1.lineStep, acceptedLine, advance.
  destruct (nonBlank line); [|done].
  destruct (App1.accepted line); [|done].
  simpl. do 2 f_equal. lia.
Qed.

Lemma foldl_lineStep lines : ∀ acc s,
  foldl (App1.lineStep clock) (acc, s) lines =
    (acc ++ assign clock (App1.clockReads s) (App1.transactionCount s)
              (omap acceptedLine lines),
     advance (length (omap acceptedLine lines)) s).
Proof.
  induction lines as [|line r IH]; intros acc s.
  - simpl. rewrite app_nil_r. unfold advance. simpl.
    rewrite Nat.add_0_r. by destruct s.
  - cbn [foldl omap list_omap]. rewrite lineStep_acceptedLine.
    destruct (acceptedLine line) as [d|]; [|apply IH].
    rewrite IH, advance_advance, <- app_assoc. simpl.
    by rewrite Nat.add_1_r.
Qed.

Lemma chunkStep_spec s text :
  App1.chunkStep clock s text =
    let ds := omap acceptedLine (complete (App1.buffer s ++ text)) in
    {| App1.buffer := carry (App1.buffer s ++ text);
       App1.transactionCount := Nat.iter (length ds) postIncrement (App1.transactionCount s);
       App1.clockReads := App1.clockReads s + length ds;
       App1.store := App1.store s
         ++ assign clock (App1.clockReads s) (App1.transactionCount s) ds |}.
Proof.
  unfold App1.chunkStep, pop.
  rewrite (split_complete_carry (App1.buffer s ++ text)).
  rewrite last_snoc, removelast_last, orEmpty_Some, foldl_lineStep.
  cbn zeta. simpl (App1.clockReads _). simpl (App1.transactionCount _).
  rewrite app_nil_l, assign_length.
  case_bool_decide as Hlen; unfold advance; simpl; [done|].
  destruct (omap acceptedLine _); simpl in *; [by rewrite app_nil_r | lia].
Qed.

Lemma streamLoop_spec texts :
  App1.streamLoop clock texts =
    let ds := omap acceptedLine (complete (concat texts)) in
    {| App1.buffer := carry (concat texts);
       App1.transactionCount := Nat.iter (length ds) postIncrement 0%N;
       App1.clockReads := length ds;
       App1.store := assign clock 0 0 ds |}.
Proof.
  unfold App1.streamLoop.
  induction texts as [|t texts IH] using rev_ind; [done|].
  rewrite foldl_app. cbn [foldl]. rewrite IH, chunkStep_spec. cbn zeta. simpl.
  rewrite concat_app. simpl. rewrite app_nil_r.
  rewrite <- carry_app, (complete_app (concat texts) t), omap_app, length_app.
  rewrite assign_app. simpl. f_equal.
  by rewrite Nat.add_comm, Nat.iter_add.
Qed.

Lemma flush_spec s :
  App1.flush clock s =
    let ds := omap acceptedLine [App1.buffer s] in
    {| App1.buffer := App1.buffer s;
       App1.transactionCount := Nat.iter (length ds) postIncrement (App1.transactionCount s);
       App1.clockReads := App1.clockReads s + length ds;
       App1.store := App1.store s
         ++ assign clock (App1.clockReads s) (App1.transactionCount s) ds |}.
Proof.
  unfold App1.flush. cbn [omap list_omap]. unfold acceptedLine.
  destruct (nonBlank (App1.buffer s)); [destruct (App1.accepted (App1.buffer s))|];
    simpl; rewrite ?app_nil_r, ?Nat.add_0_r; try by destruct s.
  f_equal. lia.
Qed.

(** Everything the handler appends, for a stream that ends normally. *)
Lemma store_flush_streamLoop texts :
  App1.store (App1.flush clock (App1.streamLoop clock texts)) =
    assign clock 0 0 (omap acceptedLine (split LF (concat texts))).
Proof.
  rewrite flush_spec, streamLoop_spec. cbn zeta. simpl.
  rewrite (split_complete_carry (concat texts)), omap_app, assign_app.
  by simpl.
Qed.

End LoopFacts.

(** ** Assigned identifiers *)

Section IdFacts.
Import JS Upload Lines Ingestion.

Lemma js_inj s1 s2 : js s1 = js s2 → s1 = s2.
Proof.
  unfold js. intros H.
  rewrite <- (String.string_of_list_ascii_of_string s1),
          <- (String.string_of_list_ascii_of_string s2).
  f_equal. revert H.
  generalize (String.list_ascii_of_string s1) (String.list_ascii_of_string s2).
  induction l as [|a l IH]; intros [|b k] H; simplify_eq/=; [done|].
  f_equal; [|by apply IH].
  rewrite <- (ascii_N_embedding a), <- (ascii_N_embedding b). congruence.
Qed.

Lemma js_String a s : js (String a s) = N_of_ascii a :: js s.
Proof. done. Qed.

Lemma pretty_N_char_not_dash d : N_of_ascii (pretty_N_char d) ≠ DASH.
Proof. unfold pretty_N_char. by repeat case_match. Qed.

Lemma pretty_N_go_no_dash x : ∀ s, DASH ∉ js s → DASH ∉ js (pretty_N_go x s).
Proof.
  induction (N.lt_wf_0 x) as [x _ IH]; intros s Hs.
  destruct (decide (x = 0%N)) as [->|Hx]; [by rewrite pretty_N_go_0|].
  rewrite pretty_N_go_step by lia.
  apply IH; [apply N.div_lt; lia|].
  rewrite js_String. apply not_elem_of_cons. split; [|done].
  intros E. by apply (pretty_N_char_not_dash (x `mod` 10)%N).
Qed.

Lemma showN_no_dash n : DASH ∉ showN n.
Proof.
  unfold showN, pretty, pretty_N. case_decide.
  - apply not_elem_of_cons. split; [done | apply not_elem_of_nil].
  - apply pretty_N_go_no_dash. apply not_elem_of_nil.
Qed.

Lemma showN_inj n m : showN n = showN m → n = m.
Proof. intros H. by apply (inj pretty), js_inj. Qed.

(** Two ids with different counter values differ, whatever the clock
    readings are. *)
Lemma makeId_inj_count t1 c1 t2 c2 : makeId t1 c1 = makeId t2 c2 → c1 = c2.
Proof.
  unfold makeId. simpl. intros H.
  apply not_elem_of_app_cons_inv_r in H as (_ & _ & H);
    [by apply showN_inj | apply showN_no_dash..].
Qed.

Lemma iter_postIncrement i :
  (N.of_nat i ≤ 2 ^ 53)%N → Nat.iter i postIncrement 0%N = N.of_nat i.
Proof.
  induction i as [|i IH]; intros H; [done|].
  rewrite Nat.iter_succ, IH by lia.
  unfold postIncrement. destruct (N.ltb_spec (N.of_nat i) (2 ^ 53)); lia.
Qed.

Lemma idOf_newTransaction d t c : idOf (App1.newTransaction d t c) = JString (makeId t c).
Proof.
  unfold idOf, App1.newTransaction.
  rewrite lookup_insert_ne by done. by rewrite lookup_insert_eq.
Qed.

Lemma stripId_newTransaction_eq d t c :
  stripId (App1.newTransaction d t c) =
    <[js "category" := JString Uncategorized]> (delete (js "id") (ownProps d)).
Proof.
  unfold stripId, App1.newTransaction.
  rewrite delete_insert_ne by done. by rewrite delete_insert_eq.
Qed.

Lemma stripId_newTransaction d t c :
  stripId (App1.newTransaction d t c) = stripId (App1.newTransaction d 0 0).
Proof. by rewrite !stripId_newTransaction_eq. Qed.

Lemma assign_lookup clock ds : ∀ k c i,
  assign clock k c ds !! i =
    (λ d, App1.newTransaction d (clock (k + i)) (Nat.iter i postIncrement c)) <$> ds !! i.
Proof.
  induction ds as [|d r IH]; intros k c i; [done|].
  destruct i as [|i]; simpl.
  - by rewrite Nat.add_0_r.
  - by rewrite IH, Nat.iter_swap, Nat.add_succ_r.
Qed.

Lemma stripId_assign clock k c ds :
  stripId <$> assign clock k c ds = (λ d, stripId (App1.newTransaction d 0 0)) <$> ds.
Proof.
  revert k c. induction ds as [|d r IH]; intros k c; simpl; [done|].
  by rewrite IH, stripId_newTransaction.
Qed.

Lemma stripId_assign_decode clock k c lines :
  Some <$> (stripId <$> assign clock k c (omap acceptedLine lines))
  = filter is_Some (decode <$> lines).
Proof.
  rewrite stripId_assign. induction lines as [|l r IH]; [done|].
  cbn [omap list_omap fmap list_fmap]. unfold decode at 1.
  destruct (acceptedLine l) as [d|]; simpl.
  - rewrite filter_cons_True by done. by rewrite <- IH.
  - rewrite filter_cons_False by (by intros [? ?]). done.
Qed.

End IdFacts.

(** ** The handler of the first revision *)

Section HandlerFacts.
Import JS Upload Lines Ingestion.
Variable clock : nat → Z.

Lemma acceptedLine_nil : acceptedLine [] = None.
Proof. done. Qed.

(** Whatever the outcome, the transactions a PDF upload leaves are made
    by [assign] from some list of accepted records. *)
Lemma handleFileChange_assign apiKey f src st :
  file_type f = js "application/pdf" →
  ∃ ds, App1.transactions (App1.handleFileChange clock apiKey (Some f) src st)
        = assign clock 0 0 ds.
Proof.
  intros Hf. unfold App1.handleFileChange. rewrite bool_decide_eq_true_2 by done.
  destruct apiKey; simpl; [|by exists []].
  destruct (failure src); simpl.
  - rewrite streamLoop_spec. by eexists.
  - rewrite store_flush_streamLoop. by eexists.
Qed.

Lemma handleFileChange_accepted apiKey f src st :
  file_type f = js "application/pdf" →
  ∃ lines, lines ⊆ split LF (concat (chunks src)) ∧
    App1.transactions (App1.handleFileChange clock apiKey (Some f) src st)
    = assign clock 0 0 (omap acceptedLine lines).
Proof.
  intros Hf. unfold App1.handleFileChange. rewrite bool_decide_eq_true_2 by done.
  destruct apiKey; simpl; [|exists []; split; [apply list_subseteq_nil|done]].
  destruct (failure src); simpl.
  - rewrite streamLoop_spec. eexists; split; [|done].
    rewrite (split_complete_carry (concat (chunks src))).
    intros x Hx. apply elem_of_app. by left.
  - rewrite store_flush_streamLoop. by eexists.
Qed.

Lemma elem_of_assign tx k c ds :
  tx ∈ assign clock k c ds → ∃ d t n, d ∈ ds ∧ tx = App1.newTransaction d t n.
Proof.
  revert k c. induction ds as [|d r IH]; intros k c H; simpl in H.
  - by apply elem_of_nil in H.
  - apply elem_of_cons in H as [->|H].
    + exists d, (clock k), c. split; [left|done].
    + destruct (IH _ _ H) as (d' & t & n & Hd & ->).
      exists d', t, n. split; [by right|done].
Qed.

Lemma handleFileChange_completed f texts st :
  file_type f = js "application/pdf" →
  App1.transactions
    (App1.handleFileChange clock true (Some f) {| chunks := texts; failure := None |} st)
  = assign clock 0 0 (omap acceptedLine (split LF (concat texts))).
Proof.
  intros Hf. unfold App1.handleFileChange. rewrite bool_decide_eq_true_2 by done.
  simpl. apply store_flush_streamLoop.
Qed.

Lemma filter_is_Some_all {A} (l : list (option A)) :
  Forall is_Some l → filter is_Some l = l.
Proof.
  induction 1 as [|x l Hx _ IH]; [done|].
  by rewrite filter_cons_True, IH.
Qed.

Lemma omap_acceptedLine_snoc_nil lines :
  omap acceptedLine (lines ++ [[]]) = omap acceptedLine lines.
Proof. by rewrite omap_app; simpl; rewrite app_nil_r. Qed.

(** The accepted records of a text that is [lines.join('\n')]. *)
Lemma accepted_of_joinLines lines :
  Forall (λ l, LF ∉ l) lines →
  omap acceptedLine (split LF (joinLines lines)) = omap acceptedLine lines.
Proof.
  intros H. destruct lines as [|l r]; [done|].
  by rewrite split_joinLines.
Qed.

End HandlerFacts.

Section DecoderFacts.
Import JS Upload Lines Ingestion.

Lemma guard_object o :
  guard (JObject o) =
    Some (truthy (field o "date") && truthy (field o "description")
          && isNumber (field o "amount") && truthy (field o "type")).
Proof.
  unfold guard, field. simpl.
  destruct (truthy (default JUndefined (o !! js "date"))); [|done].
  destruct (truthy (default JUndefined (o !! js "description"))); [|done].
  destruct (isNumber (default JUndefined (o !! js "amount"))); done.
Qed.

Lemma guard_true d :
  guard d = Some true ↔
  ∃ o, d = JObject o ∧ truthy (field o "date") ∧ truthy (field o "description")
       ∧ isNumber (field o "amount") ∧ truthy (field o "type").
Proof.
  split.
  - intros H. destruct d as [ | | | | | |o]; try done.
    rewrite guard_object in H. injection H as H.
    exists o. repeat (apply andb_prop in H as [H ?]). by rewrite !Is_true_true.
  - intros (o & -> & H1 & H2 & H3 & H4). rewrite guard_object.
    apply Is_true_true in H1, H2, H3, H4. by rewrite H1, H2, H3, H4.
Qed.

Lemma accepted_Some text d :
  App1.accepted text = Some d ↔ JSON.parse text = Some d ∧ guard d = Some true.
Proof.
  unfold App1.accepted. destruct (JSON.parse text) as [v|]; simpl.
  - destruct (guard v) as [[|]|] eqn:G; simpl; split.
    + by intros [= <-].
    + by intros [[= <-] _].
    + done.
    + intros [[= <-] G']. congruence.
    + done.
    + intros [[= <-] G']. congruence.
  - split; [done|]. by intros [? _].
Qed.

Lemma acceptedLine_Some line d :
  acceptedLine line = Some d ↔
  nonBlank line = true ∧ JSON.parse line = Some d ∧ guard d = Some true.
Proof.
  unfold acceptedLine. destruct (nonBlank line).
  - rewrite accepted_Some. split; [by intros [? ?]|by intros (_ & ? & ?)].
  - split; [done|]. by intros [? _].
Qed.

Lemma decode_None line : acceptedLine line = None → decode line = None.
Proof. unfold decode. by intros ->. Qed.


End DecoderFacts.

(** ** A text that parses is not blank *)

Section BlankFacts.
Import JS Upload Lines Ingestion.

Lemma trimStart_nil s : trimStart s = [] → Forall (λ c, isWhiteSpace c = true) s.
Proof.
  induction s as [|c r IH]; simpl; [by constructor|].
  destruct (isWhiteSpace c) eqn:E; [|done].
  intros H. constructor; [done|by apply IH].
Qed.

Lemma trimStart_all s :
  Forall (λ c, isWhiteSpace c = true) (trimStart s) →
  Forall (λ c, isWhiteSpace c = true) s.
Proof.
  induction s as [|c r IH]; simpl; [done|].
  destruct (isWhiteSpace c) eqn:E; [|done].
  intros H. constructor; [done|by apply IH].
Qed.

Lemma blank_all_white_space s :
  nonBlank s = false → Forall (λ c, isWhiteSpace c = true) s.
Proof.
  unfold nonBlank, trim, trimEnd. simpl.
  destruct (reverse _) as [|c r] eqn:E; [|done]. intros _.
  apply (f_equal reverse) in E. rewrite reverse_involutive in E. simpl in E.
  apply trimStart_nil in E. apply Forall_reverse in E.
  rewrite reverse_involutive in E. by apply trimStart_all.
Qed.

Lemma lexStart_white_space c :
  isWhiteSpace c = true → JSON.lexStart c = None ∨ JSON.lexStart c = Some ([], JSON.LStart).
Proof.
  intros Hc. unfold JSON.lexStart.
  destruct (JSON.isJsonSpace c); [by right|]. left.
  assert (c ≠ 123 ∧ c ≠ 125 ∧ c ≠ 91 ∧ c ≠ 93 ∧ c ≠ 58 ∧ c ≠ 44 ∧ c ≠ 34 ∧ c ≠ 45
          ∧ ¬ (48 ≤ c ≤ 57) ∧ ¬ (97 ≤ c ≤ 122))%N as H.
  { unfold isWhiteSpace in Hc.
    repeat (apply orb_prop in Hc as [Hc|Hc]);
      try apply andb_prop in Hc as [Hc1 Hc2];
      rewrite ?N.eqb_eq, ?N.leb_le in *; lia. }
  destruct H as (H1 & H2 & H3 & H4 & H5 & H6 & H7 & H8 & H9 & H10).
  unfold JSON.isDigit, JSON.isLower.
  repeat match goal with
         | |- context [(c =? ?n)%N] => destruct (N.eqb_spec c n); [done|]
         end.
  destruct (N.leb_spec 48 c), (N.leb_spec c 57); simpl; try lia;
    destruct (N.leb_spec 97 c), (N.leb_spec c 122); simpl; try lia; done.
Qed.

Lemma lex_white_space s :
  Forall (λ c, isWhiteSpace c = true) s →
  JSON.lexFrom JSON.LStart s = None ∨ JSON.lexFrom JSON.LStart s = Some [].
Proof.
  induction 1 as [|c r Hc _ IH]; [by right|]. simpl.
  destruct (lexStart_white_space c Hc) as [-> | ->]; [by left|].
  destruct IH as [-> | ->]; [by left | by right].
Qed.

(** The [if (line.trim())] test never hides a line [JSON.parse] would
    take. *)
Lemma parse_nonBlank text v : JSON.parse text = Some v → nonBlank text = true.
Proof.
  intros Hp. destruct (nonBlank text) eqn:E; [done|].
  apply blank_all_white_space, lex_white_space in E.
  unfold JSON.parse, JSON.lex in Hp. by destruct E as [E | E]; rewrite E in Hp.
Qed.

Lemma acceptedLine_accepted line : acceptedLine line = App1.accepted line.
Proof.
  unfold acceptedLine. destruct (nonBlank line) eqn:E; [done|].
  unfold App1.accepted. destruct (JSON.parse line) as [v|] eqn:Hp; [|done].
  apply parse_nonBlank in Hp. congruence.
Qed.

End BlankFacts.

(** ** The claims *)

Section Claims.
Import JS Upload Lines Ingestion.

(** C1, chunk-boundary invariance.  However a text is cut into chunks,
    in the middle of a line, of a field or of a delimiter, feeding the
    chunks one after the other through the streaming loop leaves the same
    carryover and yields the same transactions, up to their assigned
    ids, as feeding the whole text as one chunk; the same holds for the
    whole handler, flush included. *)
Theorem chunk_boundary_invariance (clock clock' : nat → Z) (texts : list jstring)
    (apiKey : bool) (file : option File) (st : App1.State) :
  let whole := [concat texts] in
  stripId <$> App1.store (App1.streamLoop clock texts)
    = stripId <$> App1.store (App1.streamLoop clock' whole)
  ∧ App1.buffer (App1.streamLoop clock texts)
    = App1.buffer (App1.streamLoop clock' whole)
  ∧ stripId <$> App1.transactions
      (App1.handleFileChange clock apiKey file {| chunks := texts; failure := None |} st)
    = stripId <$> App1.transactions
      (App1.handleFileChange clock' apiKey file {| chunks := whole; failure := None |} st).
Proof.
  intros whole. unfold whole. split_and!.
  - rewrite !streamLoop_spec. cbn [concat]. rewrite app_nil_r.
    cbn zeta. simpl. by rewrite !stripId_assign.
  - rewrite !streamLoop_spec. cbn [concat]. by rewrite app_nil_r.
  - unfold App1.handleFileChange. destruct file as [f|]; [|done].
    case_bool_decide; [|done]. destruct apiKey; [|done].
    cbn [negb chunks failure App1.transactions].
    rewrite !store_flush_streamLoop. cbn [concat]. rewrite app_nil_r.
    by rewrite !stripId_assign.
Qed.

(** C2, order preservation.  When the stream is a sequence of valid
    record lines, each ended by a newline or the last one left open, cut
    into chunks in any way, the stored transactions are exactly those
    records, one per line and in line order.  Chunks are taken in arrival
    order, and each chunk appends the records of the lines it completes,
    in their order, as one batch at the end of the store. *)
Theorem order_preservation (clock : nat → Z) (lines texts : list jstring)
    (f : File) (st : App1.State) :
  file_type f = js "application/pdf" →
  Forall (λ l, (LF ∉ l) ∧ is_Some (decode l)) lines →
  concat texts = joinLines lines ∨ concat texts = joinLines (lines ++ [[]]) →
  let st' := App1.handleFileChange clock true (Some f)
               {| chunks := texts; failure := None |} st in
  Some <$> (stripId <$> App1.transactions st') = decode <$> lines
  ∧ length (App1.transactions st') = length lines
  ∧ (∀ before text, App1.streamLoop clock (before ++ [text])
        = App1.chunkStep clock (App1.streamLoop clock before) text)
  ∧ (∀ s text, ∃ batch,
        App1.store (App1.chunkStep clock s text) = App1.store s ++ batch
        ∧ Some <$> (stripId <$> batch)
          = filter is_Some (decode <$> complete (App1.buffer s ++ text))).
Proof.
  intros Hf Hlines Htext st'.
  assert (Forall (λ l, LF ∉ l) lines) as Hlf.
  { apply (Forall_impl _ _ _ Hlines). by intros l [? ?]. }
  assert (Forall is_Some (decode <$> lines)) as Hok.
  { apply Forall_fmap, (Forall_impl _ _ _ Hlines). by intros l [? ?]. }
  assert (Some <$> (stripId <$> App1.transactions st') = decode <$> lines) as Hmain.
  { unfold st'. rewrite handleFileChange_completed by done.
    rewrite stripId_assign_decode.
    assert (omap acceptedLine (split LF (concat texts)) = omap acceptedLine lines) as Hacc.
    { destruct Htext as [-> | ->].
      - by apply accepted_of_joinLines.
      - rewrite accepted_of_joinLines, omap_acceptedLine_snoc_nil; [done|].
        apply Forall_app; split; [done|]. apply Forall_singleton, not_elem_of_nil. }
    rewrite <- (filter_is_Some_all _ Hok).
    rewrite <- !stripId_assign_decode with (clock := clock) (k := 0) (c := 0%N).
    by rewrite Hacc. }
  split_and!.
  - done.
  - apply (f_equal length) in Hmain. by rewrite !length_fmap in Hmain.
  - intros before text. unfold App1.streamLoop. by rewrite foldl_app.
  - intros s text. rewrite chunkStep_spec. cbn zeta. simpl.
    eexists. split; [done|]. apply stripId_assign_decode.
Qed.

(** C3, id uniqueness.  Within one session the [i]-th accepted record
    gets the id made of the clock reading and the counter [i], and all
    the ids in the store are pairwise distinct, whatever the clock
    returns and however the records are spread over chunks, as long as
    the counter stays in the range where a Number counts exactly (at
    most [2^53 + 1] records). *)
Theorem id_uniqueness (clock : nat → Z) (apiKey : bool) (f : File) (src : Source)
    (st : App1.State) :
  file_type f = js "application/pdf" →
  let txs := App1.transactions (App1.handleFileChange clock apiKey (Some f) src st) in
  (N.of_nat (length txs) ≤ 2 ^ 53 + 1)%N →
  (∀ i tx, txs !! i = Some tx → idOf tx = JString (makeId (clock i) (N.of_nat i)))
  ∧ NoDup (idOf <$> txs).
Proof.
  intros Hf txs Hlen.
  destruct (handleFileChange_assign clock apiKey f src st Hf) as [ds Hds].
  fold txs in Hds. clearbody txs. subst txs.
  rewrite assign_length in Hlen.
  assert (∀ i tx, assign clock 0 0 ds !! i = Some tx →
            idOf tx = JString (makeId (clock i) (N.of_nat i))) as Hid.
  { intros i tx Hi. pose proof (lookup_lt_Some _ _ _ Hi) as Hlt.
    rewrite assign_length in Hlt. rewrite assign_lookup in Hi.
    destruct (ds !! i) as [d|]; [|done]. injection Hi as <-.
    rewrite idOf_newTransaction, iter_postIncrement by lia. done. }
  split; [done|].
  apply NoDup_alt. intros i j x Hi Hj.
  rewrite list_lookup_fmap in Hi, Hj.
  destruct (assign clock 0 0 ds !! i) as [ti|] eqn:Ei; [|done].
  destruct (assign clock 0 0 ds !! j) as [tj|] eqn:Ej; [|done].
  simpl in Hi, Hj. rewrite (Hid _ _ Ei) in Hi. rewrite (Hid _ _ Ej) in Hj.
  rewrite <- Hj in Hi. injection Hi as Hi. apply makeId_inj_count in Hi. lia.
Qed.

Lemma order_preservation_witness :
  file_type Samples.pdf = js "application/pdf"
  ∧ Forall (λ l, (LF ∉ l) ∧ is_Some (decode l)) [Samples.coffee; Samples.salary]
  ∧ concat Samples.threeChunks = joinLines ([Samples.coffee; Samples.salary] ++ [[]])
  ∧ Some <$> (stripId <$> App1.transactions
       (App1.handleFileChange Samples.frozen true (Some Samples.pdf)
          {| chunks := Samples.threeChunks; failure := None |} Samples.idle))
    = decode <$> [Samples.coffee; Samples.salary].
Proof.
  assert (Forall (λ l, (LF ∉ l) ∧ is_Some (decode l)) [Samples.coffee; Samples.salary])
    as Hlines by (apply (bool_decide_unpack _); vm_compute; exact I).
  split_and!; [reflexivity | exact Hlines | reflexivity |].
  destruct (order_preservation Samples.frozen [Samples.coffee; Samples.salary]
              Samples.threeChunks Samples.pdf Samples.idle)
    as (H & _); [reflexivity | exact Hlines | right; reflexivity |].
  exact H.
Defined.

Lemma id_uniqueness_witness :
  let txs := App1.transactions
    (App1.handleFileChange Samples.frozen true (Some Samples.pdf)
       {| chunks := Samples.threeChunks; failure := None |} Samples.idle) in
  file_type Samples.pdf = js "application/pdf"
  ∧ (N.of_nat (length txs) ≤ 2 ^ 53 + 1)%N
  ∧ NoDup (idOf <$> txs).
Proof.
  intros txs.
  assert (N.of_nat (length txs) ≤ 2 ^ 53 + 1)%N as Hlen
    by (apply (bool_decide_unpack _); vm_compute; exact I).
  split_and!; [reflexivity | exact Hlen |].
  destruct (id_uniqueness Samples.frozen true Samples.pdf
              {| chunks := Samples.threeChunks; failure := None |} Samples.idle)
    as (_ & H); [reflexivity | exact Hlen |].
  exact H.
Defined.

End Claims.

Section DecoderClaims.
Import JS Upload Lines Ingestion Samples.

(** C5, malformed-line tolerance.  For a stream of lines of any kind,
    cut into chunks in any way, the handler ends in the [analyzing]
    state with no error message, and the stored transactions are exactly
    the records of the lines the decoder accepts, in their order.  A line
    that is blank, that is not JSON, that lacks one of the four fields or
    whose amount is not a number yields nothing; a line that parses to an
    object with truthy [date], [description] and [type] and a number for
    [amount] yields its record. *)
Theorem malformed_line_tolerance (clock : nat → Z) (lines texts : list jstring)
    (f : File) (st : App1.State) :
  file_type f = js "application/pdf" →
  Forall (λ l, LF ∉ l) lines →
  concat texts = joinLines lines →
  let st' := App1.handleFileChange clock true (Some f)
               {| chunks := texts; failure := None |} st in
  App1.appState st' = App1.analyzing
  ∧ App1.errorMessage st' = []
  ∧ Some <$> (stripId <$> App1.transactions st') = filter is_Some (decode <$> lines)
  ∧ (∀ l, nonBlank l = false → decode l = None)
  ∧ (∀ l, JSON.parse l = None → decode l = None)
  ∧ (∀ l o, JSON.parse l = Some (JObject o) →
       o !! js "date" = None ∨ o !! js "description" = None
       ∨ o !! js "amount" = None ∨ o !! js "type" = None
       ∨ isNumber (field o "amount") = false →
       decode l = None)
  ∧ (∀ l o, JSON.parse l = Some (JObject o) →
       truthy (field o "date") = true → truthy (field o "description") = true →
       isNumber (field o "amount") = true → truthy (field o "type") = true →
       is_Some (decode l)).
Proof.
  intros Hf Hlf Htext st'. split_and!.
  - unfold st', App1.handleFileChange. by rewrite bool_decide_eq_true_2.
  - unfold st', App1.handleFileChange. by rewrite bool_decide_eq_true_2.
  - unfold st'. rewrite handleFileChange_completed by done.
    by rewrite stripId_assign_decode, Htext, <- !stripId_assign_decode
      with (clock := clock) (k := 0) (c := 0%N), accepted_of_joinLines.
  - intros l Hl. apply decode_None. unfold acceptedLine. by rewrite Hl.
  - intros l Hl. apply decode_None. unfold acceptedLine, App1.accepted.
    rewrite Hl. by destruct (nonBlank l).
  - intros l o Hl Hbad. apply decode_None. unfold acceptedLine, App1.accepted.
    rewrite Hl. simpl. rewrite guard_object.
    assert (truthy (field o "date") && truthy (field o "description")
            && isNumber (field o "amount") && truthy (field o "type") = false) as ->.
    { unfold field in *.
      destruct Hbad as [H|[H|[H|[H|H]]]]; rewrite H; simpl;
        rewrite ?andb_false_r; done. }
    by destruct (nonBlank l).
  - intros l o Hl H1 H2 H3 H4. unfold decode.
    rewrite acceptedLine_accepted. unfold App1.accepted.
    rewrite Hl. simpl. rewrite guard_object, H1, H2, H3, H4. by eexists.
Qed.

Lemma malformed_line_tolerance_witness :
  file_type pdf = js "application/pdf"
  ∧ Forall (λ l, LF ∉ l) mixedLines
  ∧ concat mixedChunks = joinLines mixedLines
  ∧ Some <$> (stripId <$> App1.transactions
       (App1.handleFileChange frozen true (Some pdf)
          {| chunks := mixedChunks; failure := None |} idle))
    = [decode coffee; decode salary].
Proof.
  assert (Forall (λ l, LF ∉ l) mixedLines) as Hlf
    by (apply (bool_decide_unpack _); vm_compute; exact I).
  split_and!; [reflexivity | exact Hlf | reflexivity |].
  destruct (malformed_line_tolerance frozen mixedLines mixedChunks pdf idle)
    as (_ & _ & H & _); [reflexivity | exact Hlf | reflexivity |].
  etrans; [exact H|]. vm_compute. reflexivity.
Defined.

End DecoderClaims.

Section ShapeClaims.
Import JS Upload Lines Ingestion Samples Claimed.




End ShapeClaims.

Section ExtraKeyClaims.
Import JS Upload Lines Ingestion Samples Claimed.

(** C9, as stated, fails on its second half: the record with the extra
    key [memo] is accepted, and the stored transaction carries [memo],
    which is not one of the documented fields. *)
Lemma extra_key_is_stored :
  storedFor withMemo = [App1.newTransaction (wire withMemo) (frozen 0) 0]
  ∧ App1.newTransaction (wire withMemo) (frozen 0) 0 !! js "memo"
    = Some (JString (js "card 1234"))
  ∧ (js "memo" ∉ documentedFields)
  ∧ ¬ (dom (App1.newTransaction (wire withMemo) (frozen 0) 0) ⊆ documentedFields).
Proof.
  assert (js "memo" ∉ documentedFields) as Hmemo
    by (apply (bool_decide_unpack _); vm_compute; exact I).
  split_and!; [vm_compute; reflexivity | vm_compute; reflexivity | done |].
  intros Hsub. apply Hmemo, Hsub, elem_of_dom. by eexists; vm_compute.
Qed.

(** C9, amended.  Keys other than the four required ones never change
    whether a record is accepted.  Every stored transaction is the
    record of an accepted line with all its keys and values, extra ones
    included, except that [id] is set to the assigned id and [category]
    to the default. *)
Theorem extra_keys_are_carried (clock : nat → Z) (apiKey : bool) (f : File)
    (src : Source) (st : App1.State) (tx : obj) :
  file_type f = js "application/pdf" →
  tx ∈ App1.transactions (App1.handleFileChange clock apiKey (Some f) src st) →
  (∃ line o t n,
     line ∈ split LF (concat (chunks src))
     ∧ JSON.parse line = Some (JObject o)
     ∧ (∀ k, k ≠ js "id" → k ≠ js "category" → tx !! k = o !! k)
     ∧ tx !! js "id" = Some (JString (makeId t n))
     ∧ tx !! js "category" = Some (JString Uncategorized)
     ∧ dom tx = dom o ∪ {[js "id"; js "category"]})
  ∧ (∀ o k v, k ∉ js <$> ["date"; "description"; "amount"; "type"] →
       guard (JObject (<[k := v]> o)) = guard (JObject o)).
Proof.
  intros Hf Htx. split.
  - destruct (handleFileChange_accepted clock apiKey f src st Hf) as (lines & Hsub & E).
    rewrite E in Htx. apply elem_of_assign in Htx as (d & t & n & Hd & ->).
    apply list_elem_of_omap in Hd as (line & Hline & Hd).
    apply acceptedLine_Some in Hd as (_ & Hp & Hg).
    apply guard_true in Hg as (o & -> & _).
    exists line, o, t, n. unfold App1.newTransaction. simpl.
    split_and!; [by apply Hsub | done | | | |].
    + intros k H1 H2. by rewrite !lookup_insert_ne.
    + rewrite lookup_insert_ne by done. by rewrite lookup_insert_eq.
    + by rewrite lookup_insert_eq.
    + rewrite !dom_insert_L. set_solver.
  - intros o k v Hk. rewrite !guard_object. unfold field.
    rewrite !lookup_insert_ne; [done|..]; intros ->; apply Hk;
      cbn [fmap list_fmap]; set_solver.
Qed.

Lemma extra_keys_are_carried_witness :
  file_type pdf = js "application/pdf"
  ∧ App1.newTransaction (wire withMemo) (frozen 0) 0 ∈ storedFor withMemo
  ∧ ∃ line o t n,
     line ∈ split LF (concat [withMemo ++ [LF]])
     ∧ JSON.parse line = Some (JObject o)
     ∧ (∀ k, k ≠ js "id" → k ≠ js "category" →
          App1.newTransaction (wire withMemo) (frozen 0) 0 !! k = o !! k)
     ∧ App1.newTransaction (wire withMemo) (frozen 0) 0 !! js "id"
       = Some (JString (makeId t n))
     ∧ App1.newTransaction (wire withMemo) (frozen 0) 0 !! js "category"
       = Some (JString Uncategorized)
     ∧ dom (App1.newTransaction (wire withMemo) (frozen 0) 0)
       = dom o ∪ {[js "id"; js "category"]}.
Proof.
  assert (storedFor withMemo = [App1.newTransaction (wire withMemo) (frozen 0) 0]) as E
    by (vm_compute; reflexivity).
  assert (App1.newTransaction (wire withMemo) (frozen 0) 0 ∈ storedFor withMemo) as Hin
    by (rewrite E; left).
  split_and!; [reflexivity | exact Hin |].
  destruct (extra_keys_are_carried frozen true pdf
              {| chunks := [withMemo ++ [LF]]; failure := None |} idle _ eq_refl Hin)
    as [H _].
  exact H.
Defined.

(** C10.  A line that parses to a record whose [date] or [description]
    is the empty string, or whose [type] is falsy, is rejected, in the
    first revision and in the revisions that look up saved notes alike;
    being present and well-shaped is not enough. *)
Theorem falsy_fields_are_rejected (line : jstring) (o : obj)
    (createTransactionKey : JsValue → option jstring)
    (getItem : jstring → option jstring) :
  JSON.parse line = Some (JObject o) →
  field o "date" = JString [] ∨ field o "description" = JString []
  ∨ truthy (field o "type") = false →
  App1.accepted line = None
  ∧ acceptedLine line = None
  ∧ Notes.accepted createTransactionKey getItem line = None.
Proof.
  intros Hp Hbad.
  assert (guard (JObject o) = Some false) as Hg.
  { rewrite guard_object. f_equal.
    destruct Hbad as [H|[H|H]]; rewrite H; simpl; rewrite ?andb_false_r; done. }
  unfold acceptedLine, App1.accepted, Notes.accepted. rewrite Hp. simpl. rewrite Hg. simpl.
  by destruct (nonBlank line).
Qed.

Lemma falsy_fields_are_rejected_witness :
  JSON.parse emptyDate = Some (wire emptyDate)
  ∧ wire emptyDate = JObject (ownProps (wire emptyDate))
  ∧ field (ownProps (wire emptyDate)) "date" = JString []
  ∧ typeof (field (ownProps (wire emptyDate)) "description") = TyString
  ∧ typeof (field (ownProps (wire emptyDate)) "amount") = TyNumber
  ∧ typeof (field (ownProps (wire emptyDate)) "type") = TyString
  ∧ acceptedLine emptyDate = None.
Proof.
  assert (JSON.parse emptyDate = Some (JObject (ownProps (wire emptyDate)))) as Hp
    by (vm_compute; reflexivity).
  assert (field (ownProps (wire emptyDate)) "date" = JString []) as Hd
    by (vm_compute; reflexivity).
  split_and!; [vm_compute; reflexivity .. |].
  destruct (falsy_fields_are_rejected emptyDate (ownProps (wire emptyDate))
              (λ _, None) (λ _, None) Hp (or_introl Hd)) as (_ & H & _).
  exact H.
Defined.

End ExtraKeyClaims.

Section FlushClaims.
Import JS Upload Lines Ingestion Samples.

(** The first revision flushes the carryover: the last line of a stream
    that does not end with a newline, when valid, is the last
    transaction. *)
Lemma first_revision_flushes (clock : nat → Z) (lines texts : list jstring)
    (final : jstring) (f : File) (st : App1.State) :
  file_type f = js "application/pdf" →
  Forall (λ l, LF ∉ l) (lines ++ [final]) →
  is_Some (decode final) →
  concat texts = joinLines (lines ++ [final]) →
  last (stripId <$> App1.transactions
          (App1.handleFileChange clock true (Some f)
             {| chunks := texts; failure := None |} st))
  = decode final.
Proof.
  intros Hf Hlf [r Hr] Htext.
  rewrite handleFileChange_completed, Htext, accepted_of_joinLines by done.
  rewrite stripId_assign, fmap_last, omap_app, last_app.
  unfold decode in Hr. destruct (acceptedLine final) as [d|] eqn:E; [|done].
  simpl. rewrite E. simpl. unfold decode. by rewrite E.
Qed.

(** C4 fails in the revision with saved sessions: nothing follows the
    loop there, so a stream that is one valid record without a final
    newline leaves the store empty, whereas the first revision stores the
    record. *)
Theorem unterminated_last_record_is_dropped (clock : nat → Z)
    (createTransactionKey : JsValue → option jstring)
    (getItem : jstring → option jstring) (toLowerCase : jstring → jstring)
    (st3 : AppSessions.State) (st1 : App1.State) :
  is_Some (decode coffee)
  ∧ AppSessions.transactions
      (AppSessions.handleFileChange clock createTransactionKey getItem toLowerCase
         true (Some pdf) {| chunks := [coffee]; failure := None |} st3)
    = []
  ∧ Some <$> (stripId <$> App1.transactions
       (App1.handleFileChange clock true (Some pdf)
          {| chunks := [coffee]; failure := None |} st1))
    = [decode coffee].
Proof.
  split_and!.
  - by apply (bool_decide_unpack _); vm_compute.
  - vm_compute. reflexivity.
  - rewrite handleFileChange_completed by done.
    rewrite stripId_assign_decode. vm_compute. reflexivity.
Qed.

(** In that revision a chunk that completes no line only grows the
    carryover. *)
Lemma sessions_chunkStep_no_newline (clock : nat → Z)
    (createTransactionKey : JsValue → option jstring)
    (getItem : jstring → option jstring) (s : AppSessions.Loop) (text : jstring) :
  LF ∉ AppSessions.buffer s ++ text →
  AppSessions.chunkStep clock createTransactionKey getItem s text =
    {| AppSessions.buffer := AppSessions.buffer s ++ text;
       AppSessions.transactionCount := AppSessions.transactionCount s;
       AppSessions.clockReads := AppSessions.clockReads s;
       AppSessions.store := AppSessions.store s |}.
Proof.
  intros H. unfold AppSessions.chunkStep, pop.
  rewrite (split_no_sep LF _ H). cbn [last removelast foldl].
  by rewrite orEmpty_Some.
Qed.

(** So a stream without any newline leaves the store empty. *)
Lemma sessions_revision_never_flushes (clock : nat → Z)
    (createTransactionKey : JsValue → option jstring)
    (getItem : jstring → option jstring) (texts : list jstring) :
  LF ∉ concat texts →
  AppSessions.store
    (AppSessions.streamLoop clock createTransactionKey getItem texts) = []
  ∧ AppSessions.buffer
    (AppSessions.streamLoop clock createTransactionKey getItem texts) = concat texts.
Proof.
  unfold AppSessions.streamLoop.
  induction texts as [|t texts IH] using rev_ind; [done|].
  rewrite concat_app. simpl. rewrite app_nil_r. intros H.
  apply not_elem_of_app in H as H'. destruct H' as [H1 H2].
  destruct (IH H1) as [IHs IHb].
  rewrite foldl_app. cbn [foldl].
  rewrite sessions_chunkStep_no_newline by (by rewrite IHb).
  simpl. by rewrite IHb.
Qed.

End FlushClaims.

Section FailureClaims.
Import JS Upload Lines Ingestion Samples.

(** C6, as stated, fails on its second half in the first revision: after
    a failure that follows one stored record the store still holds the
    record, but the component mounts the error screen alone, not the
    table. *)
Lemma failure_hides_the_table :
  let st' := App1.handleFileChange frozen true (Some pdf) broken idle in
  App1.transactions st' = [App1.newTransaction (wire coffee) (frozen 0) 0]
  ∧ App1.appState st' = App1.error
  ∧ App1.render st' = [ErrorScreen (failureMessage (ErrorWith (js "network down")))]
  ∧ ¬ (∃ txs streaming, AnalysisScreen txs streaming ∈ App1.render st').
Proof.
  intros st'.
  assert (App1.render st'
          = [ErrorScreen (failureMessage (ErrorWith (js "network down")))]) as Hr
    by (vm_compute; reflexivity).
  split_and!; [vm_compute; reflexivity | reflexivity | exact Hr |].
  intros (txs & b & H). rewrite Hr in H.
  apply list_elem_of_singleton in H. discriminate H.
Qed.

(** The store only grows along the stream: what the first revision holds
    when the stream fails is an initial part of what it holds when the
    stream goes on and ends normally. *)
Lemma failed_store_is_prefix (clock : nat → Z) (delivered more : list jstring) :
  App1.store (App1.streamLoop clock delivered)
    `prefix_of` App1.store (App1.flush clock (App1.streamLoop clock (delivered ++ more))).
Proof.
  rewrite store_flush_streamLoop, streamLoop_spec. cbn zeta. simpl.
  rewrite concat_app, split_app_carry, omap_app, assign_app.
  by eexists.
Qed.

(** C6, amended.  When the collaborator throws, whether on the request or
    in the middle of the stream, the handler ends in the [error] state
    with the failure's message and the store holds exactly what the
    chunks delivered before the failure appended, an initial part of what
    a complete stream would have given.  In the first revision the
    failure state mounts the error screen only, and the revision with
    saved sessions goes back to the upload page with an error banner; the
    table stays mounted in the failure state only in the revision that
    keeps the last session, and there only when the store is not
    empty. *)
Theorem failure_keeps_the_store (clock : nat → Z)
    (createTransactionKey : JsValue → option jstring)
    (getItem : jstring → option jstring) (toLowerCase : jstring → jstring)
    (f : File) (src : Source) (e : Thrown)
    (st : App1.State) (stL : AppLastSession.State) (stS : AppSessions.State) :
  file_type f = js "application/pdf" →
  failure src = Some e →
  let st' := App1.handleFileChange clock true (Some f) src st in
  let stL' := AppLastSession.handleFileChange clock createTransactionKey getItem
                true (Some f) src stL in
  let stS' := AppSessions.handleFileChange clock createTransactionKey getItem
                toLowerCase true (Some f) src stS in
  App1.appState st' = App1.error
  ∧ App1.errorMessage st' = failureMessage e
  ∧ App1.transactions st' = App1.store (App1.streamLoop clock (chunks src))
  ∧ (∀ more, App1.transactions st' `prefix_of`
       App1.transactions
         (App1.handleFileChange clock true (Some f)
            {| chunks := chunks src ++ more; failure := None |} st))
  ∧ App1.render st' = [ErrorScreen (failureMessage e)]
  ∧ AppLastSession.appState stL' = AppLastSession.error
  ∧ AppLastSession.transactions stL'
    = AppLastSession.store
        (AppLastSession.streamLoop clock createTransactionKey getItem (chunks src))
  ∧ AppLastSession.render stL'
    = match AppLastSession.transactions stL' with
      | [] => [ErrorScreen (failureMessage e)]
      | _ :: _ => [AnalysisScreen (AppLastSession.transactions stL') false]
      end
  ∧ AppSessions.transactions stS'
    = AppSessions.store
        (AppSessions.streamLoop clock createTransactionKey getItem (chunks src))
  ∧ AppSessions.render stS' = [UploadScreen; ErrorBanner (failureMessage e)]
  ∧ App1.transactions (App1.handleFileChange clock false (Some f) src st) = []
  ∧ App1.appState (App1.handleFileChange clock false (Some f) src st) = App1.error.
Proof.
  intros Hf He st' stL' stS'.
  assert (stS' = {| AppSessions.appState := AppSessions.error;
                    AppSessions.transactions :=
                      AppSessions.store
                        (AppSessions.streamLoop clock createTransactionKey getItem
                           (chunks src));
                    AppSessions.categories := AppSessions.categories stS;
                    AppSessions.errorMessage := failureMessage e;
                    AppSessions.isStreaming := false;
                    AppSessions.editingCategoryId := AppSessions.editingCategoryId stS;
                    AppSessions.editingCategoryName := AppSessions.editingCategoryName stS |})
    as ->.
  { unfold stS', AppSessions.handleFileChange.
    by rewrite bool_decide_eq_true_2, He. }
  assert (st' = {| App1.appState := App1.error;
                   App1.transactions := App1.store (App1.streamLoop clock (chunks src));
                   App1.categories := App1.categories st;
                   App1.errorMessage := failureMessage e;
                   App1.isStreaming := false;
                   App1.editingCategoryId := App1.editingCategoryId st;
                   App1.editingCategoryName := App1.editingCategoryName st;
                   App1.deletingCategoryId := App1.deletingCategoryId st |}) as ->.
  { unfold st', App1.handleFileChange. by rewrite bool_decide_eq_true_2, He. }
  assert (stL' = {| AppLastSession.appState := AppLastSession.error;
                    AppLastSession.transactions :=
                      AppLastSession.store
                        (AppLastSession.streamLoop clock createTransactionKey getItem
                           (chunks src));
                    AppLastSession.errorMessage := failureMessage e;
                    AppLastSession.isStreaming := false |}) as ->.
  { unfold stL', AppLastSession.handleFileChange.
    by rewrite bool_decide_eq_true_2, He. }
  split_and!; try done.
  - intros more. unfold App1.handleFileChange.
    rewrite bool_decide_eq_true_2 by done. simpl. apply failed_store_is_prefix.
  - unfold AppLastSession.render. simpl.
    by destruct (AppLastSession.store _).
  - unfold App1.handleFileChange. by rewrite bool_decide_eq_true_2.
  - unfold App1.handleFileChange. by rewrite bool_decide_eq_true_2.
Qed.

Lemma failure_keeps_the_store_witness :
  let st' := App1.handleFileChange frozen true (Some pdf) broken idle in
  let stL' := AppLastSession.handleFileChange frozen (λ _, Some []) (λ _, None)
                true (Some pdf) broken idleLastSession in
  file_type pdf = js "application/pdf"
  ∧ failure broken = Some (ErrorWith (js "network down"))
  ∧ App1.transactions st' = App1.store (App1.streamLoop frozen (chunks broken))
  ∧ App1.render st' = [ErrorScreen (failureMessage (ErrorWith (js "network down")))]
  ∧ AppLastSession.render stL'
    = match AppLastSession.transactions stL' with
      | [] => [ErrorScreen (failureMessage (ErrorWith (js "network down")))]
      | _ :: _ => [AnalysisScreen (AppLastSession.transactions stL') false]
      end
  ∧ length (AppLastSession.transactions stL') = 1.
Proof.
  intros st' stL'.
  destruct (failure_keeps_the_store frozen (λ _, Some []) (λ _, None) asciiLower
              pdf broken (ErrorWith (js "network down")) idle idleLastSession
              idleSessions eq_refl eq_refl)
    as (_ & _ & H3 & _ & H5 & _ & _ & H8 & _).
  split_and!; [reflexivity | reflexivity | exact H3 | exact H5 | exact H8 |].
  vm_compute. reflexivity.
Defined.

End FailureClaims.

Section CategoryClaims.
Import JS Upload Lines Ingestion Samples.

(** The first revision rewrites the transactions when a category is
    renamed: those that carried the old name carry the trimmed new one,
    the others are left as they were. *)
Lemma first_revision_rename_rewrites (toLowerCase : jstring → jstring)
    (categoryId : jstring) (old : Category) (st : App1.State) :
  findCategory categoryId (App1.categories st) = Some old →
  trim (App1.editingCategoryName st) ≠ [] →
  App1.nameTaken toLowerCase (trim (App1.editingCategoryName st)) categoryId
    (App1.categories st) = false →
  App1.transactions (App1.handleSaveCategory toLowerCase categoryId st)
  = (λ t, if isString (categoryOf t) (cat_name old)
          then withCategory (trim (App1.editingCategoryName st)) t else t)
    <$> App1.transactions st.
Proof.
  intros Hfind Hname Htaken. unfold App1.handleSaveCategory.
  rewrite Htaken, Hfind.
  by destruct (trim (App1.editingCategoryName st)).
Qed.

(** And when a category is deleted: the transactions that carried its
    name become [Uncategorized]. *)
Lemma first_revision_delete_rewrites (categoryId : jstring) (old : Category)
    (st : App1.State) :
  findCategory categoryId (App1.categories st) = Some old →
  App1.transactions (App1.handleDeleteCategory categoryId st)
  = (λ t, if isString (categoryOf t) (cat_name old)
          then withCategory Uncategorized t else t)
    <$> App1.transactions st.
Proof. intros Hfind. unfold App1.handleDeleteCategory, App1.deleteTimer. simpl. by rewrite Hfind. Qed.

Lemma categoryOf_withCategory name t : categoryOf (withCategory name t) = JString name.
Proof. unfold categoryOf, withCategory. by rewrite lookup_insert_eq. Qed.

(** In the revision with saved sessions, saving a category's new name
    never touches the transactions. *)
Lemma sessions_rename_keeps_transactions (id : jstring) (st : AppSessions.State) :
  AppSessions.transactions (AppSessions.handleSaveCategory id st)
  = AppSessions.transactions st.
Proof. done. Qed.

(** C8 fails in the revision with saved sessions.  With one transaction
    in [Groceries] and one in [Rent], renaming [Groceries] to [Food]
    leaves the first transaction reading [Groceries], and deleting the
    renamed category leaves it so again, while the first revision makes
    it read [Food] and then [Uncategorized]. *)
Theorem rename_leaves_transactions_stale :
  let renamed3 := AppSessions.handleSaveCategory (js "1") renamingSessions in
  let deleted3 := AppSessions.handleDeleteCategory (js "1") renamed3 in
  let renamed1 := App1.handleSaveCategory asciiLower (js "1") renaming in
  let deleted1 := App1.handleDeleteCategory (js "1") renamed1 in
  categoryOf <$> AppSessions.transactions renamingSessions
    = [JString (js "Groceries"); JString (js "Rent")]
  ∧ cat_name <$> AppSessions.categories renamed3
    = js <$> ["Food"; "Utilities"; "Rent"; "Entertainment";
              "Transport"; "Health"; "Dining Out"; "Uncategorized"]
  ∧ categoryOf <$> AppSessions.transactions renamed3
    = [JString (js "Groceries"); JString (js "Rent")]
  ∧ categoryOf <$> AppSessions.transactions deleted3
    = [JString (js "Groceries"); JString (js "Rent")]
  ∧ categoryOf <$> App1.transactions renamed1
    = [JString (js "Food"); JString (js "Rent")]
  ∧ categoryOf <$> App1.transactions deleted1
    = [JString (js "Uncategorized"); JString (js "Rent")].
Proof. split_and!; vm_compute; reflexivity. Qed.

End CategoryClaims.

(** ** Edits of the store in the first revision *)

Section EditFacts.
Import JS Upload Lines Ingestion App1More.

Lemma categoryOf_insert_other k v t :
  k ≠ js "category" → categoryOf (<[k := v]> t) = categoryOf t.
Proof. intros H. unfold categoryOf. by rewrite lookup_insert_ne. Qed.

Lemma idOf_withCategory c t : idOf (withCategory c t) = idOf t.
Proof. unfold idOf, withCategory. by rewrite lookup_insert_ne. Qed.

Lemma hasId_false_all (id : jstring) (txs : list obj) (g : obj → obj) :
  existsb (hasId id) txs = false →
  (λ t, if hasId id t then g t else t) <$> txs = txs.
Proof.
  intros H. induction txs as [|t r IH]; [done|].
  simpl in H. apply orb_false_elim in H as [Ht Hr].
  cbn [fmap list_fmap]. rewrite Ht. f_equal. by apply IH.
Qed.

(** X1.  Assigning a category changes nothing but the [category] field,
    and only in the transactions whose id is the given one: the ids, the
    order and the number of transactions are kept, the other transactions
    are left as they were, and when no transaction has the id the store
    is unchanged. *)
Theorem category_change_is_local (transactionId newCategory : jstring)
    (st : App1.State) :
  let st' := handleTransactionCategoryChange transactionId newCategory st in
  delete (js "category") <$> App1.transactions st'
    = delete (js "category") <$> App1.transactions st
  ∧ idOf <$> App1.transactions st' = idOf <$> App1.transactions st
  ∧ (∀ i t, App1.transactions st !! i = Some t →
       App1.transactions st' !! i
       = Some (if hasId transactionId t then withCategory newCategory t else t))
  ∧ (∀ t, t ∈ App1.transactions st' → hasId transactionId t = true →
       categoryOf t = JString newCategory)
  ∧ (existsb (hasId transactionId) (App1.transactions st) = false → st' = st)
  ∧ App1.categories st' = App1.categories st.
Proof.
  intros st'. unfold st', handleTransactionCategoryChange, setTransactions. simpl.
  split_and!.
  - rewrite <- list_fmap_compose. apply list_fmap_ext. intros _ t _. simpl.
    destruct (hasId transactionId t); [|done].
    unfold withCategory. by rewrite delete_insert_eq.
  - rewrite <- list_fmap_compose. apply list_fmap_ext. intros _ t _. simpl.
    destruct (hasId transactionId t); [|done]. apply idOf_withCategory.
  - intros i t Hi. by rewrite list_lookup_fmap, Hi.
  - intros t Ht Hid. apply list_elem_of_fmap in Ht as (t0 & -> & _).
    destruct (hasId transactionId t0) eqn:E.
    + unfold categoryOf, withCategory. by rewrite lookup_insert_eq.
    + congruence.
  - intros H. rewrite hasId_false_all by done. by destruct st.
  - done.
Qed.

End EditFacts.

Section EditAfterUpload.
Import JS Upload Lines Ingestion App1More.

Lemma assign_ids (clock : nat → Z) (ds : list JsValue) (i : nat) (t : obj) :
  (N.of_nat (length ds) ≤ 2 ^ 53 + 1)%N →
  assign clock 0 0 ds !! i = Some t →
  idOf t = JString (makeId (clock i) (N.of_nat i)).
Proof.
  intros Hlen Hi. pose proof (lookup_lt_Some _ _ _ Hi) as Hlt.
  rewrite assign_length in Hlt. rewrite assign_lookup in Hi.
  destruct (ds !! i) as [d|]; [|done]. injection Hi as <-.
  by rewrite idOf_newTransaction, iter_postIncrement by lia.
Qed.

(** X2.  After an upload, assigning a category to the id of the [i]-th
    stored transaction changes that transaction and no other one: the ids
    the ingestion assigned are distinct, so the edit reaches exactly one
    row. *)
Theorem category_change_after_upload (clock : nat → Z) (apiKey : bool) (f : File)
    (src : Source) (st : App1.State) (i : nat) (t : obj) (newCategory : jstring) :
  file_type f = js "application/pdf" →
  let st1 := App1.handleFileChange clock apiKey (Some f) src st in
  (N.of_nat (length (App1.transactions st1)) ≤ 2 ^ 53 + 1)%N →
  App1.transactions st1 !! i = Some t →
  idOf t = JString (makeId (clock i) (N.of_nat i))
  ∧ App1.transactions
      (handleTransactionCategoryChange (makeId (clock i) (N.of_nat i)) newCategory st1)
    = <[i := withCategory newCategory t]> (App1.transactions st1).
Proof.
  intros Hf st1 Hlen Hi.
  destruct (handleFileChange_assign clock apiKey f src st Hf) as [ds Hds].
  fold st1 in Hds. unfold handleTransactionCategoryChange, setTransactions. simpl.
  rewrite Hds in *. rewrite assign_length in Hlen.
  split; [by apply (assign_ids clock ds)|].
  apply list_eq. intros j. rewrite list_lookup_fmap.
  destruct (decide (j = i)) as [->|Hne].
  - rewrite list_lookup_insert_eq by (by apply lookup_lt_Some in Hi).
    rewrite Hi. simpl. unfold hasId.
    rewrite (assign_ids clock ds i t Hlen Hi). simpl.
    by rewrite bool_decide_eq_true_2.
  - rewrite list_lookup_insert_ne by done.
    destruct (assign clock 0 0 ds !! j) as [tj|] eqn:Ej; [|done]. simpl.
    unfold hasId. rewrite (assign_ids clock ds j tj Hlen Ej). simpl.
    rewrite bool_decide_eq_false_2; [done|].
    intros E. apply makeId_inj_count in E. lia.
Qed.

Lemma category_change_after_upload_witness :
  let st1 := App1.handleFileChange Samples.frozen true (Some Samples.pdf)
               {| chunks := Samples.threeChunks; failure := None |} Samples.idle in
  file_type Samples.pdf = js "application/pdf"
  ∧ (N.of_nat (length (App1.transactions st1)) ≤ 2 ^ 53 + 1)%N
  ∧ App1.transactions st1 !! 1
    = Some (App1.newTransaction (Samples.wire Samples.salary) (Samples.frozen 1) 1)
  ∧ categoryOf <$> App1.transactions
      (handleTransactionCategoryChange (makeId (Samples.frozen 1) 1) (js "Rent") st1)
    = [JString Uncategorized; JString (js "Rent")].
Proof.
  intros st1.
  assert (N.of_nat (length (App1.transactions st1)) ≤ 2 ^ 53 + 1)%N as Hlen
    by (apply (bool_decide_unpack _); vm_compute; exact I).
  assert (App1.transactions st1 !! 1
          = Some (App1.newTransaction (Samples.wire Samples.salary) (Samples.frozen 1) 1))
    as Hi by (vm_compute; reflexivity).
  split_and!; [reflexivity | exact Hlen | exact Hi |].
  destruct (category_change_after_upload Samples.frozen true Samples.pdf
              {| chunks := Samples.threeChunks; failure := None |} Samples.idle
              1 _ (js "Rent") eq_refl Hlen Hi) as [_ H].
  change (N.of_nat 1) with 1%N in H. fold st1 in H. rewrite H.
  vm_compute. reflexivity.
Defined.

End EditAfterUpload.

(** ** Edits made while the stream is read *)

Section StreamingEdits.
Import JS Upload Lines Ingestion Streaming.

(** X3.  In the first revision a chunk only appends.  Whatever the store
    holds when the chunk arrives, edits made since the previous chunk
    included, stays unchanged in front of the batch, and neither the
    batch nor the carryover nor the counter depends on it. *)
Theorem chunk_keeps_edits (clock : nat → Z) (s : App1.Loop) (text : jstring)
    (edited : list obj) :
  ∃ batch,
    App1.store (App1.chunkStep clock s text) = App1.store s ++ batch
    ∧ App1.store (App1.chunkStep clock (editStore edited s) text) = edited ++ batch
    ∧ App1.chunkStep clock (editStore edited s) text
      = editStore (edited ++ batch) (App1.chunkStep clock s text)
    ∧ Some <$> (stripId <$> batch)
      = filter is_Some (decode <$> complete (App1.buffer s ++ text)).
Proof.
  rewrite !chunkStep_spec. cbn zeta. simpl.
  eexists. split_and!; [done | done | done |]. apply stripId_assign_decode.
Qed.




End StreamingEdits.

(** ** The categories of the first revision *)

Section CategoryInvariants.
Import JS Upload Lines Ingestion App1More.
Variable toLowerCase : jstring → jstring.











End CategoryInvariants.

Section CategoryWitness.
Import JS Upload Lines Ingestion App1More Samples Samples2.


End CategoryWitness.

(** ** Notes in the first revision *)

Section NoteFacts.
Import JS Upload Lines Ingestion App1More.

Lemma trimStart_idem s : trimStart (trimStart s) = trimStart s.
Proof.
  induction s as [|c r IH]; [done|]. simpl.
  destruct (isWhiteSpace c) eqn:E; [done|]. simpl. by rewrite E.
Qed.

Lemma trimStart_snoc l c :
  isWhiteSpace c = false → trimStart (l ++ [c]) = trimStart l ++ [c].
Proof.
  intros Hc. induction l as [|x r IH]; simpl; [by rewrite Hc|].
  by destruct (isWhiteSpace x).
Qed.

Lemma trimStart_fixed c r :
  isWhiteSpace c = false → trimStart (c :: r) = c :: r.
Proof. intros Hc. simpl. by rewrite Hc. Qed.

(** What [trim] returns is empty or begins and ends with a code unit that
    is not white space, so trimming it again changes nothing. *)
Lemma trim_idempotent s : trim (trim s) = trim s.
Proof.
  unfold trim, trimEnd.
  assert (trimStart (reverse (trimStart (reverse (trimStart s))))
          = reverse (trimStart (reverse (trimStart s)))) as ->.
  { destruct (trimStart s) as [|c r] eqn:E; [done|].
    assert (isWhiteSpace c = false) as Hc.
    { clear -E. induction s as [|x s IH]; [done|]. simpl in E.
      destruct (isWhiteSpace x) eqn:Ex; [by apply IH|]. by injection E as <- _. }
    rewrite reverse_cons, trimStart_snoc by done.
    rewrite reverse_app, reverse_singleton. simpl. by rewrite Hc. }
  by rewrite reverse_involutive, trimStart_idem.
Qed.

Lemma idOf_insert_notes v t : idOf (<[js "notes" := v]> t) = idOf t.
Proof. unfold idOf. by rewrite lookup_insert_ne. Qed.

(** X6.  Saving a note stores the trimmed text on the transactions with
    the given id and closes the editor; opening the editor on such a
    transaction and saving again without typing leaves the store exactly
    as it is. *)
Theorem note_save_is_stable (transactionId text : jstring) (ed : NoteEditor)
    (st : App1.State) (t1 : obj) :
  let st1 := setTransactions
               ((λ t, if hasId transactionId t
                      then <[js "notes" := JString (trim text)]> t else t)
                  <$> App1.transactions st) st in
  t1 ∈ App1.transactions st1 →
  hasId transactionId t1 = true →
  handleSaveNote transactionId (typeNote text ed) st = Some (handleCancelEditingNote, st1)
  ∧ field t1 "notes" = JString (trim text)
  ∧ handleSaveNote transactionId (handleStartEditingNote t1) st1
    = Some (handleCancelEditingNote, st1).
Proof.
  intros st1 Ht1 Hid. split; [done|].
  assert (field t1 "notes" = JString (trim text)) as Hnotes.
  { apply list_elem_of_fmap in Ht1 as (t0 & -> & _).
    destruct (hasId transactionId t0) eqn:E; [|congruence].
    unfold field. by rewrite lookup_insert_eq. }
  split; [done|].
  unfold handleSaveNote, handleStartEditingNote. simpl. rewrite Hnotes.
  assert ((if truthy (JString (trim text)) then JString (trim text) else JString [])
          = JString (trim text)) as -> by (by destruct (trim text)).
  rewrite trim_idempotent. do 2 f_equal. unfold st1, setTransactions. simpl.
  f_equal. rewrite <- list_fmap_compose. apply list_fmap_ext. intros _ t _. simpl.
  destruct (hasId transactionId t) eqn:E.
  - unfold hasId in *. rewrite idOf_insert_notes, E. by rewrite insert_insert_eq.
  - by rewrite E.
Qed.

Lemma note_save_is_stable_witness :
  let t1 := <[js "notes" := JString (js "lunch")]> Samples.groceriesTx in
  let st1 := setTransactions [t1; Samples.rentTx] Samples.renaming in
  t1 ∈ App1.transactions st1
  ∧ hasId (js "1700000000000-0") t1 = true
  ∧ handleSaveNote (js "1700000000000-0") (handleStartEditingNote t1) st1
    = Some (handleCancelEditingNote, st1).
Proof.
  intros t1 st1.
  assert (st1 = setTransactions
                  ((λ t, if hasId (js "1700000000000-0") t
                         then <[js "notes" := JString (trim (js " lunch "))]> t else t)
                     <$> App1.transactions Samples.renaming) Samples.renaming) as E
    by (vm_compute; reflexivity).
  assert (t1 ∈ App1.transactions st1) as Hin by left.
  assert (hasId (js "1700000000000-0") t1 = true) as Hid by (vm_compute; reflexivity).
  split_and!; [exact Hin | exact Hid |].
  rewrite E in Hin |- *.
  destruct (note_save_is_stable (js "1700000000000-0") (js " lunch ")
              handleCancelEditingNote Samples.renaming t1 Hin Hid) as (_ & _ & H).
  exact H.
Defined.

End NoteFacts.

(** ** Note keys *)

Section NoteKeyFacts.
Import JS Upload Lines Ingestion NoteKey.
Variable toLowerCase : jstring → jstring.
Variable showNumber : decimal → jstring.

Lemma note_key_ext (o1 o2 : obj) :
  (∀ k, k ∈ js <$> ["date"; "description"; "amount"; "type"] → o1 !! k = o2 !! k) →
  (createTransactionKey toLowerCase showNumber) (JObject o1) =
      (createTransactionKey toLowerCase showNumber) (JObject o2).
Proof.
  intros H. unfold createTransactionKey. simpl.
  rewrite !(H (js "description")), !(H (js "date")), !(H (js "amount")),
    !(H (js "type")); [done|..]; cbn [fmap list_fmap]; set_solver.
Qed.

Lemma newTransaction_wire_fields r now count k :
  k ∈ js <$> ["date"; "description"; "amount"; "type"] →
  Notes.newTransaction r now count !! k = ownProps r.1 !! k.
Proof.
  intros Hk. unfold Notes.newTransaction.
  rewrite !lookup_insert_ne; [done|..]; intros <-; cbn [fmap list_fmap] in Hk;
    repeat (apply elem_of_cons in Hk as [Hk|Hk]; [done|]); by apply elem_of_nil in Hk.
Qed.

Lemma note_key_of_stored r now count :
  (createTransactionKey toLowerCase showNumber) (JObject (Notes.newTransaction r now count)) =
      (createTransactionKey toLowerCase showNumber) (JObject (ownProps r.1)).
Proof. apply note_key_ext. intros k Hk. by apply newTransaction_wire_fields. Qed.

Lemma normalize_bounds d :
  length (normalize toLowerCase d) ≤ 50
  ∧ Forall (λ c, isLowerAlnum c = true) (normalize toLowerCase d).
Proof.
  unfold normalize. split.
  - rewrite length_take. lia.
  - apply Forall_take. apply Forall_forall. intros c Hc.
    apply list_elem_of_In, filter_In in Hc. by destruct Hc.
Qed.

Lemma notes_accepted_eq getItem line :
  Notes.accepted (createTransactionKey toLowerCase showNumber) getItem line =
    (txData ← App1.accepted line;
     noteKey ← (createTransactionKey toLowerCase showNumber) txData;
     Some (txData, match getItem noteKey with
                   | Some savedNote => JString savedNote
                   | None => JUndefined
                   end)).
Proof.
  unfold Notes.accepted, App1.accepted.
  destruct (JSON.parse line) as [d|]; [|done]. simpl.
  destruct (guard d) as [[|]|]; done.
Qed.


(** X8.  The decoder of the revisions that restore notes takes a subset
    of what the first decoder takes, with the same record: exactly the
    lines whose record also has a key.  Then [description] is a non-empty
    string, the part of the key made from it has at most 50 code units,
    all in [a-z0-9], and the note attached is the item saved under the
    key, or [undefined]. *)
Theorem notes_decoder_is_stricter (getItem : jstring → option jstring)
    (line : jstring) (txData note : JsValue) :
  Notes.accepted (createTransactionKey toLowerCase showNumber) getItem line = Some
      (txData, note) →
  App1.accepted line = Some txData
  ∧ (∃ o description noteKey,
       txData = JObject o
       ∧ field o "description" = JString description
       ∧ description ≠ []
       ∧ (createTransactionKey toLowerCase showNumber) txData = Some noteKey
       ∧ note = match getItem noteKey with
                | Some savedNote => JString savedNote
                | None => JUndefined
                end
       ∧ length (normalize toLowerCase description) ≤ 50
       ∧ Forall (λ c, isLowerAlnum c = true) (normalize toLowerCase description)).
Proof.
  rewrite notes_accepted_eq. intros H.
  destruct (App1.accepted line) as [d|] eqn:Ha; [|done]. simpl in H.
  destruct ((createTransactionKey toLowerCase showNumber) d) as [k|] eqn:Hk; [|done]. simpl in
      H. injection H as <- <-.
  split; [done|].
  apply accepted_Some in Ha as [_ Hg]. apply guard_true in Hg as (o & -> & _ & Hd & _).
  assert (∃ description, field o "description" = JString description)
    as [description E].
  { unfold createTransactionKey in Hk. cbn [getField] in Hk.
    unfold field. destruct (o !! js "description") as [[]|]; try done.
    by eexists. }
  exists o, description, k. rewrite E in Hd.
  split_and!; [done|done|by destruct description|done|done|apply normalize_bounds..].
Qed.

End NoteKeyFacts.

(** ** The streaming loops of the revisions with notes *)

Section NoteLoopFacts.
Import JS Upload Lines Ingestion NoteIngestion.
Variable clock : nat → Z.
Variable createTransactionKey : JsValue → option jstring.
Variable getItem : jstring → option jstring.

Lemma assignNotes_app k c r1 r2 :
  assignNotes clock k c (r1 ++ r2) =
    assignNotes clock k c r1
    ++ assignNotes clock (k + length r1) (Nat.iter (length r1) postIncrement c) r2.
Proof.
  revert k c. induction r1 as [|r rest IH]; intros k c; simpl.
  - by rewrite Nat.add_0_r.
  - rewrite IH, Nat.iter_swap. do 3 f_equal. lia.
Qed.

Lemma assignNotes_length k c rs : length (assignNotes clock k c rs) = length rs.
Proof. revert k c. induction rs; intros; simpl; [done|]. by rewrite IHrs. Qed.


Lemma sessions_lineStep_accepted acc s line :
  AppSessions.lineStep clock createTransactionKey getItem (acc, s) line =
    match (acceptedNoteLine createTransactionKey getItem) line with
    | Some r =>
        (acc ++ [Notes.newTransaction r (clock (AppSessions.clockReads s))
            (AppSessions.transactionCount s)],
         {| AppSessions.buffer := AppSessions.buffer s;
            AppSessions.transactionCount := postIncrement (AppSessions.transactionCount s);
            AppSessions.clockReads := S (AppSessions.clockReads s);
            AppSessions.store := AppSessions.store s |})
    | None => (acc, s)
    end.
Proof.
  unfold AppSessions.lineStep, acceptedNoteLine.
  destruct (nonBlank line); [|done].
  by destruct (Notes.accepted createTransactionKey getItem line).
Qed.

Lemma sessions_foldl_lineStep lines : ∀ acc s,
  foldl (AppSessions.lineStep clock createTransactionKey getItem) (acc, s) lines =
    let rs := omap (acceptedNoteLine createTransactionKey getItem) lines in
    (acc ++ assignNotes clock (AppSessions.clockReads s) (AppSessions.transactionCount s) rs,
     {| AppSessions.buffer := AppSessions.buffer s;
        AppSessions.transactionCount :=
          Nat.iter (length rs) postIncrement (AppSessions.transactionCount s);
        AppSessions.clockReads := AppSessions.clockReads s + length rs;
        AppSessions.store := AppSessions.store s |}).
Proof.
  cbn zeta. induction lines as [|line r IH]; intros acc s.
  - simpl. rewrite app_nil_r, Nat.add_0_r. by destruct s.
  - cbn [foldl omap list_omap]. rewrite sessions_lineStep_accepted.
    destruct ((acceptedNoteLine createTransactionKey getItem) line) as [d|]; [|apply IH].
    rewrite IH. simpl. rewrite <- app_assoc. simpl.
    rewrite Nat.iter_swap. do 3 f_equal. lia.
Qed.

Lemma sessions_chunkStep_spec s text :
  AppSessions.chunkStep clock createTransactionKey getItem s text =
    let rs := omap (acceptedNoteLine createTransactionKey getItem)
        (complete (AppSessions.buffer s ++ text)) in
    {| AppSessions.buffer := carry (AppSessions.buffer s ++ text);
       AppSessions.transactionCount :=
         Nat.iter (length rs) postIncrement (AppSessions.transactionCount s);
       AppSessions.clockReads := AppSessions.clockReads s + length rs;
       AppSessions.store := AppSessions.store s
         ++ assignNotes clock (AppSessions.clockReads s) (AppSessions.transactionCount s) rs |}.
Proof.
  unfold AppSessions.chunkStep, pop.
  rewrite (split_complete_carry (AppSessions.buffer s ++ text)).
  rewrite last_snoc, removelast_last, orEmpty_Some, sessions_foldl_lineStep.
  cbn zeta. simpl (AppSessions.clockReads _). simpl (AppSessions.transactionCount _).
  rewrite app_nil_l, assignNotes_length.
  case_bool_decide as Hlen; simpl; [done|].
  destruct (omap (acceptedNoteLine createTransactionKey getItem) _); simpl in *;
      [by rewrite app_nil_r | lia].
Qed.

Lemma sessions_streamLoop_spec texts :
  AppSessions.streamLoop clock createTransactionKey getItem texts =
    let rs := omap (acceptedNoteLine createTransactionKey getItem) (complete (concat texts)) in
    {| AppSessions.buffer := carry (concat texts);
       AppSessions.transactionCount := Nat.iter (length rs) postIncrement 0%N;
       AppSessions.clockReads := length rs;
       AppSessions.store := assignNotes clock 0 0 rs |}.
Proof.
  unfold AppSessions.streamLoop.
  induction texts as [|t texts IH] using rev_ind; [done|].
  rewrite foldl_app. cbn [foldl]. rewrite IH, sessions_chunkStep_spec. cbn zeta. simpl.
  rewrite concat_app. simpl. rewrite app_nil_r.
  rewrite <- carry_app, (complete_app (concat texts) t), omap_app, length_app.
  rewrite assignNotes_app. simpl. f_equal.
  by rewrite Nat.add_comm, Nat.iter_add.
Qed.

Lemma last_lineStep_accepted acc s line :
  AppLastSession.lineStep clock createTransactionKey getItem (acc, s) line =
    match (acceptedNoteLine createTransactionKey getItem) line with
    | Some r =>
        (acc ++ [Notes.newTransaction r (clock (AppLastSession.clockReads s))
            (AppLastSession.transactionCount s)],
         {| AppLastSession.buffer := AppLastSession.buffer s;
            AppLastSession.transactionCount := postIncrement
                (AppLastSession.transactionCount s);
            AppLastSession.clockReads := S (AppLastSession.clockReads s);
        AppLastSession.finalTransactions := AppLastSession.finalTransactions s;
            AppLastSession.store := AppLastSession.store s |})
    | None => (acc, s)
    end.
Proof.
  unfold AppLastSession.lineStep, acceptedNoteLine.
  destruct (nonBlank line); [|done].
  by destruct (Notes.accepted createTransactionKey getItem line).
Qed.

Lemma last_foldl_lineStep lines : ∀ acc s,
  foldl (AppLastSession.lineStep clock createTransactionKey getItem) (acc, s) lines =
    let rs := omap (acceptedNoteLine createTransactionKey getItem) lines in
    (acc ++ assignNotes clock (AppLastSession.clockReads s)
              (AppLastSession.transactionCount s) rs,
     {| AppLastSession.buffer := AppLastSession.buffer s;
        AppLastSession.transactionCount :=
          Nat.iter (length rs) postIncrement (AppLastSession.transactionCount s);
        AppLastSession.clockReads := AppLastSession.clockReads s + length rs;
        AppLastSession.finalTransactions := AppLastSession.finalTransactions s;
        AppLastSession.store := AppLastSession.store s |}).
Proof.
  cbn zeta. induction lines as [|line r IH]; intros acc s.
  - simpl. rewrite app_nil_r, Nat.add_0_r. by destruct s.
  - cbn [foldl omap list_omap]. rewrite last_lineStep_accepted.
    destruct ((acceptedNoteLine createTransactionKey getItem) line) as [d|]; [|apply IH].
    rewrite IH. simpl. rewrite <- app_assoc. simpl.
    rewrite Nat.iter_swap. do 3 f_equal. lia.
Qed.

Lemma last_chunkStep_spec s text :
  AppLastSession.store s = AppLastSession.finalTransactions s →
  AppLastSession.chunkStep clock createTransactionKey getItem s text =
    let rs := omap (acceptedNoteLine createTransactionKey getItem)
        (complete (AppLastSession.buffer s ++ text)) in
    let txs := AppLastSession.finalTransactions s
      ++ assignNotes clock (AppLastSession.clockReads s)
           (AppLastSession.transactionCount s) rs in
    {| AppLastSession.buffer := carry (AppLastSession.buffer s ++ text);
       AppLastSession.transactionCount :=
         Nat.iter (length rs) postIncrement (AppLastSession.transactionCount s);
       AppLastSession.clockReads := AppLastSession.clockReads s + length rs;
       AppLastSession.finalTransactions := txs;
       AppLastSession.store := txs |}.
Proof.
  intros Hs. unfold AppLastSession.chunkStep, pop.
  rewrite (split_complete_carry (AppLastSession.buffer s ++ text)).
  rewrite last_snoc, removelast_last, orEmpty_Some, last_foldl_lineStep.
  cbn zeta. simpl (AppLastSession.clockReads _).
  simpl (AppLastSession.transactionCount _).
  rewrite app_nil_l, assignNotes_length.
  case_bool_decide as Hlen; simpl; [done|].
  destruct (omap (acceptedNoteLine createTransactionKey getItem) _); simpl in *; [|lia].
  by rewrite app_nil_r, Hs.
Qed.

Lemma last_streamLoop_spec texts :
  AppLastSession.streamLoop clock createTransactionKey getItem texts =
    let rs := omap (acceptedNoteLine createTransactionKey getItem) (complete (concat texts)) in
    {| AppLastSession.buffer := carry (concat texts);
       AppLastSession.transactionCount := Nat.iter (length rs) postIncrement 0%N;
       AppLastSession.clockReads := length rs;
       AppLastSession.finalTransactions := assignNotes clock 0 0 rs;
       AppLastSession.store := assignNotes clock 0 0 rs |}.
Proof.
  unfold AppLastSession.streamLoop.
  induction texts as [|t texts IH] using rev_ind; [done|].
  rewrite foldl_app. cbn [foldl]. rewrite IH, last_chunkStep_spec by done.
  cbn zeta. simpl.
  rewrite concat_app. simpl. rewrite app_nil_r.
  rewrite <- carry_app, (complete_app (concat texts) t), omap_app, length_app.
  rewrite assignNotes_app. simpl. f_equal.
  by rewrite Nat.add_comm, Nat.iter_add.
Qed.

Lemma last_store_flush_streamLoop texts :
  AppLastSession.store
    (AppLastSession.flush clock createTransactionKey getItem
       (AppLastSession.streamLoop clock createTransactionKey getItem texts)) =
    assignNotes clock 0 0
        (omap (acceptedNoteLine createTransactionKey getItem) (split LF (concat texts))).
Proof.
  rewrite last_streamLoop_spec. cbn zeta. unfold AppLastSession.flush.
  cbn [AppLastSession.buffer AppLastSession.store AppLastSession.clockReads
       AppLastSession.transactionCount].
  rewrite (split_complete_carry (concat texts)), omap_app, assignNotes_app.
  cbn [omap list_omap].
  destruct ((acceptedNoteLine createTransactionKey getItem) (carry (concat texts))) as [r|]
      eqn:E;
    unfold acceptedNoteLine in E;
    destruct (nonBlank (carry (concat texts))); try done; rewrite ?E;
    cbn [AppLastSession.store assignNotes]; rewrite ?app_nil_r; try done.
Qed.

End NoteLoopFacts.

(** ** Uploads of the revisions with notes *)

Section NoteUploads.
Import JS Upload Lines Ingestion NoteIngestion.
Variable clock : nat → Z.
Variable createTransactionKey : JsValue → option jstring.
Variable getItem : jstring → option jstring.
Variable toLowerCase : jstring → jstring.

Lemma length_omap_le {A B} (g : A → option B) (l : list A) :
  length (omap g l) ≤ length l.
Proof.
  induction l as [|a l IH]; [done|]. cbn [omap list_omap].
  destruct (g a); cbn [length]; lia.
Qed.

Lemma sessions_handleFileChange_store f src st :
  file_type f = js "application/pdf"
  ∨ AppSessions.endsWith (toLowerCase (file_name f)) (js ".pdf") = true →
  AppSessions.transactions
    (AppSessions.handleFileChange clock createTransactionKey getItem toLowerCase
       true (Some f) src st)
  = assignNotes clock 0 0
      (omap (acceptedNoteLine createTransactionKey getItem) (complete (concat (chunks src)))).
Proof.
  intros Hf. unfold AppSessions.handleFileChange.
  assert (negb (bool_decide (file_type f = js "application/pdf"))
          && negb (AppSessions.endsWith (toLowerCase (file_name f)) (js ".pdf")) = false)
    as ->.
  { destruct Hf as [Hf|Hf]; [by rewrite bool_decide_eq_true_2|].
    rewrite Hf. by rewrite andb_false_r. }
  cbn [negb]. rewrite sessions_streamLoop_spec. by destruct (failure src).
Qed.

(** X9.  In the revision with saved sessions an upload stores the
    accepted records of the newline-terminated lines of the whole text, in
    order, and nothing else: the result does not depend on where the
    chunks are cut, is the same whether the stream ends normally or
    fails, and never holds the record of an unterminated last line. *)
Theorem sessions_upload_stores_terminated_lines (f : File) (src : Source)
    (st : AppSessions.State) :
  file_type f = js "application/pdf"
  ∨ AppSessions.endsWith (toLowerCase (file_name f)) (js ".pdf") = true →
  let st' := AppSessions.handleFileChange clock createTransactionKey getItem
               toLowerCase true (Some f) src st in
  AppSessions.transactions st'
    = assignNotes clock 0 0
        (omap (acceptedNoteLine createTransactionKey getItem) (complete (concat (chunks src))))
  ∧ (∀ src' st0, concat (chunks src') = concat (chunks src) →
       AppSessions.transactions
         (AppSessions.handleFileChange clock createTransactionKey getItem
            toLowerCase true (Some f) src' st0)
       = AppSessions.transactions st')
  ∧ length (AppSessions.transactions st') ≤ length (complete (concat (chunks src)))
  ∧ AppSessions.isStreaming st' = false
  ∧ AppSessions.categories st' = AppSessions.categories st.
Proof.
  intros Hf st'. subst st'. rewrite sessions_handleFileChange_store by done.
  split_and!.
  - done.
  - intros src' st0 E. rewrite sessions_handleFileChange_store by done. by rewrite E.
  - rewrite assignNotes_length. apply length_omap_le.
  - unfold AppSessions.handleFileChange.
    destruct (negb _ && negb _) eqn:E; [|by destruct (failure src)].
    destruct Hf as [Hf|Hf]; [by rewrite bool_decide_eq_true_2 in E|].
    by rewrite Hf, andb_false_r in E.
  - unfold AppSessions.handleFileChange.
    destruct (negb _ && negb _); [done|by destruct (failure src)].
Qed.

Lemma last_handleFileChange_store f src st :
  file_type f = js "application/pdf" →
  AppLastSession.transactions
    (AppLastSession.handleFileChange clock createTransactionKey getItem
       true (Some f) src st)
  = assignNotes clock 0 0
      (omap (acceptedNoteLine createTransactionKey getItem)
         (match failure src with
          | Some _ => complete (concat (chunks src))
          | None => split LF (concat (chunks src))
          end)).
Proof.
  intros Hf. unfold AppLastSession.handleFileChange.
  rewrite bool_decide_eq_true_2 by done. cbn [negb].
  destruct (failure src); cbn [AppLastSession.transactions].
  - by rewrite last_streamLoop_spec.
  - by rewrite last_store_flush_streamLoop.
Qed.

(** X10.  In the revision that keeps the last session an upload that ends
    normally stores the accepted records of all lines of the whole text,
    the unterminated last one included, and one that fails those of the
    terminated lines; either way the result does not depend on where the
    chunks are cut. *)
Theorem last_session_upload_stores_lines (f : File) (src : Source)
    (st : AppLastSession.State) :
  file_type f = js "application/pdf" →
  let upload src st :=
    AppLastSession.transactions
      (AppLastSession.handleFileChange clock createTransactionKey getItem
         true (Some f) src st) in
  upload src st
    = assignNotes clock 0 0
        (omap (acceptedNoteLine createTransactionKey getItem)
           (match failure src with
            | Some _ => complete (concat (chunks src))
            | None => split LF (concat (chunks src))
            end))
  ∧ (∀ src' st0, concat (chunks src') = concat (chunks src) →
       (failure src' = None ↔ failure src = None) →
       upload src' st0 = upload src st)
  ∧ (∀ e, upload {| chunks := chunks src; failure := Some e |} st
          `prefix_of` upload {| chunks := chunks src; failure := None |} st).
Proof.
  intros Hf upload. subst upload. cbn beta.
  split_and!.
  - by apply last_handleFileChange_store.
  - intros src' st0 E Hfail. rewrite !last_handleFileChange_store by done.
    rewrite E. destruct (failure src') as [e'|], (failure src) as [e|]; try done.
    + by destruct Hfail as [_ Hfail]; specialize (Hfail eq_refl).
    + by destruct Hfail as [Hfail _]; specialize (Hfail eq_refl).
  - intros e. rewrite !last_handleFileChange_store by done. simpl.
    rewrite (split_complete_carry (concat (chunks src))), omap_app, assignNotes_app.
    by apply prefix_app_r.
Qed.

End NoteUploads.

(** ** Saved notes *)

Section SavedNotes.
Import JS Upload Lines Ingestion NoteIngestion NoteKey.
Variable toLowerCase : jstring → jstring.
Variable showNumber : decimal → jstring.





End SavedNotes.

(** ** Saved sessions *)

Section SessionFacts.
Import JS Upload Sessions.
Variable toLowerCase : jstring → jstring.

Lemma insertNewest_Permutation x l : insertNewest x l ≡ₚ x :: l.
Proof.
  induction l as [|y r IH]; simpl; [done|].
  destruct (timestamp x <? timestamp y)%Z; [|done].
  rewrite IH. apply Permutation_swap.
Qed.

Lemma sortNewestFirst_Permutation l : sortNewestFirst l ≡ₚ l.
Proof.
  induction l as [|x l IH]; simpl; [done|].
  by rewrite insertNewest_Permutation, IH.
Qed.

Lemma insertNewest_sorted x l : newestFirst l → newestFirst (insertNewest x l).
Proof.
  induction l as [|y r IH]; intros H; simpl.
  - by split.
  - destruct H as [Hy Hr]. destruct (timestamp x <? timestamp y)%Z eqn:E.
    + apply Z.ltb_lt in E. split; [|by apply IH].
      rewrite insertNewest_Permutation. constructor; [lia|done].
    + apply Z.ltb_ge in E. split; [|by split].
      constructor; [done|]. eapply Forall_impl; [exact Hy|]. simpl. lia.
Qed.

Lemma sortNewestFirst_sorted l : newestFirst (sortNewestFirst l).
Proof.
  induction l as [|x l IH]; simpl; [done|]. by apply insertNewest_sorted.
Qed.

Lemma filter_sorted (g : Session → bool) l : newestFirst l → newestFirst (List.filter g l).
Proof.
  induction l as [|y r IH]; intros H; simpl; [done|].
  destruct H as [Hy Hr]. destruct (g y); [|by apply IH]. split; [|by apply IH].
  apply Forall_forall. intros z Hz. apply list_elem_of_In, filter_In in Hz as [Hz _].
  rewrite Forall_forall in Hy. by apply Hy, list_elem_of_In.
Qed.

Lemma filter_namedApart (g : Session → bool) l :
  namedApart toLowerCase l → namedApart toLowerCase (List.filter g l).
Proof.
  unfold namedApart. intros H. eapply sublist_NoDup; [exact H|].
  apply fmap_sublist. clear H. induction l as [|y r IH]; simpl; [done|].
  destruct (g y); [by apply sublist_skip|by apply sublist_cons].
Qed.

Lemma save_namedApart now1 now2 name st l :
  namedApart toLowerCase l →
  namedApart toLowerCase (handleSaveSession toLowerCase now1 now2 name st l).
Proof.
  unfold namedApart, handleSaveSession. intros H.
  rewrite sortNewestFirst_Permutation, fmap_app. simpl.
  apply NoDup_app. split_and!.
  - by apply filter_namedApart.
  - intros n Hn Hn'. apply list_elem_of_singleton in Hn'. subst n.
    apply list_elem_of_fmap in Hn as (s & Hs & Hin).
    apply list_elem_of_In, filter_In in Hin as [_ Hin]. unfold otherName in Hin.
    by rewrite bool_decide_eq_true_2 in Hin.
  - apply NoDup_singleton.
Qed.

Lemma step_keeps_sessions l e :
  newestFirst l → namedApart toLowerCase l →
  newestFirst (step toLowerCase l e) ∧ namedApart toLowerCase (step toLowerCase l e).
Proof.
  intros Hs Hn. destruct e as [now1 now2 name st|confirmed sessionId]; simpl.
  - split; [apply sortNewestFirst_sorted|by apply save_namedApart].
  - unfold handleDeleteSession. destruct confirmed; [|done].
    split; [by apply filter_sorted|by apply filter_namedApart].
Qed.

(** X12.  Whatever sessions are saved and deleted, the list of sessions
    stays sorted, newest first, and never holds two sessions whose names
    differ in the case of letters only. *)
Theorem sessions_stay_sorted_and_named_apart (sessions : list Session)
    (es : list Event) :
  newestFirst sessions → namedApart toLowerCase sessions →
  newestFirst (run toLowerCase sessions es)
  ∧ namedApart toLowerCase (run toLowerCase sessions es).
Proof.
  unfold run. revert sessions.
  induction es as [|e es IH]; intros l Hs Hn; [done|].
  cbn [foldl]. destruct (step_keeps_sessions l e Hs Hn) as [Hs' Hn'].
  by apply IH.
Qed.

Lemma find_id_Some sessionId l s :
  List.find (λ s, bool_decide (session_id s = sessionId)) l = Some s →
  s ∈ l ∧ session_id s = sessionId.
Proof.
  intros H. apply find_some in H as [Hin Hid].
  split; [by apply list_elem_of_In|by apply bool_decide_eq_true in Hid].
Qed.

(** X13.  A session that was just saved loads back: if no session that is
    kept has the id of the new one (the clock reading of the save, in
    decimal), loading that id restores the transactions and the categories
    of the moment of the save and shows the table; the new session
    replaces the ones of the same name and all others are kept. *)
Theorem saved_session_loads_back (now1 now2 : Z) (name : jstring)
    (st st' : AppSessions.State) (sessions : list Session) :
  let sessions' := handleSaveSession toLowerCase now1 now2 name st sessions in
  showZ now1 ∉ session_id <$> List.filter (otherName toLowerCase name) sessions →
  AppSessions.transactions (handleLoadSession (showZ now1) sessions' st')
    = AppSessions.transactions st
  ∧ AppSessions.categories (handleLoadSession (showZ now1) sessions' st')
    = AppSessions.categories st
  ∧ AppSessions.appState (handleLoadSession (showZ now1) sessions' st')
    = AppSessions.analyzing
  ∧ (∀ s, s ∈ sessions' ↔
          (s ∈ sessions ∧ toLowerCase (session_name s) ≠ toLowerCase name)
          ∨ s = {| session_id := showZ now1; session_name := name; timestamp := now2;
                   session_transactions := AppSessions.transactions st;
                   session_categories := AppSessions.categories st |}).
Proof.
  intros sessions' Hfresh.
  assert (∀ s, s ∈ sessions' ↔
            (s ∈ sessions ∧ toLowerCase (session_name s) ≠ toLowerCase name)
            ∨ s = {| session_id := showZ now1; session_name := name; timestamp := now2;
                     session_transactions := AppSessions.transactions st;
                     session_categories := AppSessions.categories st |}) as Hmem.
  { intros s. subst sessions'. unfold handleSaveSession.
    rewrite sortNewestFirst_Permutation, elem_of_app, list_elem_of_singleton.
    rewrite list_elem_of_In, filter_In, <- list_elem_of_In. unfold otherName.
    rewrite negb_true_iff, bool_decide_eq_false. done. }
  unfold handleLoadSession.
  destruct (List.find _ sessions') as [s|] eqn:Hfind.
  - apply find_id_Some in Hfind as [Hin Hid]. apply Hmem in Hin as [[Hin Hname]| ->].
    + exfalso. apply Hfresh. apply list_elem_of_fmap. exists s. split; [done|].
      apply list_elem_of_In, filter_In. split; [by apply list_elem_of_In|].
      unfold otherName. by rewrite bool_decide_eq_false_2.
    + by split_and!.
  - exfalso.
    pose proof (find_none _ _ Hfind
      {| session_id := showZ now1; session_name := name; timestamp := now2;
         session_transactions := AppSessions.transactions st;
         session_categories := AppSessions.categories st |}) as Hnone.
    cbn beta in Hnone. rewrite bool_decide_eq_true_2 in Hnone by done.
    assert (true = false) as E; [|done].
    apply Hnone. apply list_elem_of_In, Hmem. by right.
Qed.

End SessionFacts.

(** ** Notes of the revision that keeps the last session *)

Section LastNotes.
Import JS Upload Lines Ingestion NoteIngestion NoteKey.
Variable toLowerCase : jstring → jstring.
Variable showNumber : decimal → jstring.



End LastNotes.

(** ** Suggested categories *)

Section SuggestFacts.
Import JS Upload Ingestion Suggest.
Variable showNumber : decimal → jstring.




End SuggestFacts.

(** ** Bulk categories *)

Section BulkFacts.
Import JS Upload Ingestion App1More Bulk.

Lemma withCategory_twice c t : withCategory c (withCategory c t) = withCategory c t.
Proof. unfold withCategory. by rewrite insert_insert_eq. Qed.

Lemma hasId_withCategory id c t : hasId id (withCategory c t) = hasId id t.
Proof. unfold hasId. by rewrite idOf_withCategory. Qed.

Lemma setTransactions_same st : setTransactions (App1.transactions st) st = st.
Proof. by destruct st. Qed.

Lemma repeated_change category (ids : list jstring) (st : App1.State) :
  foldr (λ id, handleTransactionCategoryChange id category) st ids
  = setTransactions
      ((λ t, if existsb (λ id, hasId id t) ids then withCategory category t else t)
         <$> App1.transactions st) st.
Proof.
  induction ids as [|id ids IH]; cbn [foldr existsb].
  - by rewrite list_fmap_id, setTransactions_same.
  - rewrite IH. unfold handleTransactionCategoryChange, setTransactions.
    cbn [App1.transactions App1.appState App1.categories App1.errorMessage
         App1.isStreaming App1.editingCategoryId App1.editingCategoryName
         App1.deletingCategoryId].
    f_equal. rewrite <- list_fmap_compose. apply list_fmap_ext. intros _ t _. simpl.
    destruct (existsb _ ids); simpl.
    + rewrite hasId_withCategory, withCategory_twice, orb_true_r.
      by destruct (hasId id t).
    + by rewrite orb_false_r.
Qed.

Lemma selected_existsb (sel : Selection) (ids : list jstring) t :
  (∀ id, id ∈ ids ↔ id ∈ sel) →
  existsb (λ id, hasId id t) ids = selected sel t.
Proof.
  intros H. unfold selected, stringId, hasId, isString.
  destruct (idOf t) as [ | | | |s| | ]; try (clear; by induction ids).
  apply eq_true_iff_eq. rewrite existsb_exists, bool_decide_eq_true, <- H. split.
  - intros (id & Hin & E). apply bool_decide_eq_true in E. subst id.
    by apply list_elem_of_In.
  - intros Hin. exists s. split; [by apply list_elem_of_In|by apply bool_decide_eq_true].
Qed.

(** X16.  Assigning a category to the selection is the same as assigning
    it to each selected id, one after the other, in any order and however
    often an id is repeated; it clears the selection.  After selecting all
    of a list, the transactions that get the category are those whose id
    is the id of a transaction of that list, and ticking or unticking one
    box changes the selection for the transactions with that id only. *)
Theorem bulk_category_is_repeated_single_change (category : jstring)
    (selectedTransactionIds : Selection) (st : App1.State) :
  let result := handleApplyBulkCategory category selectedTransactionIds st in
  result.1 = ∅
  ∧ (∀ ids : list jstring,
       (∀ id, id ∈ ids ↔ id ∈ selectedTransactionIds) →
       result.2 = foldr (λ id, handleTransactionCategoryChange id category) st ids)
  ∧ result.2
    = foldr (λ id, handleTransactionCategoryChange id category) st
        (elements selectedTransactionIds)
  ∧ (∀ filteredTransactions t,
       selected (handleSelectAllTransactions true filteredTransactions) t = true
       ↔ ∃ t', t' ∈ filteredTransactions ∧ stringId t' = stringId t
               ∧ is_Some (stringId t))
  ∧ (∀ transactionId checked t,
       selected (handleSelectTransaction transactionId checked selectedTransactionIds) t
       = if hasId transactionId t then checked else selected selectedTransactionIds t).
Proof.
  intros result.
  assert (∀ ids : list jstring,
            (∀ id, id ∈ ids ↔ id ∈ selectedTransactionIds) →
            result.2 = foldr (λ id, handleTransactionCategoryChange id category) st ids)
    as Hany.
  { intros ids Hids. rewrite repeated_change. subst result.
    unfold handleApplyBulkCategory. cbn [snd]. f_equal.
    apply list_fmap_ext. intros _ t _. simpl.
    by rewrite (selected_existsb selectedTransactionIds ids t Hids). }
  split_and!; [done|exact Hany| | |].
  - apply Hany. intros id. apply elem_of_elements.
  - intros filtered t. unfold selected, handleSelectAllTransactions.
    destruct (stringId t) as [s|] eqn:Es.
    + rewrite bool_decide_eq_true, elem_of_list_to_set, list_elem_of_omap. split.
      * intros (t' & Hin & E). exists t'. by split_and!.
      * intros (t' & Hin & E & _). by exists t'.
    + split; [done|]. by intros (_ & _ & _ & [? ?]).
  - intros transactionId checked t.
    unfold selected, handleSelectTransaction, stringId, hasId, isString.
    destruct (idOf t) as [ | | | |s| | ]; try done.
    destruct checked; repeat case_bool_decide; try done; set_solver.
Qed.

End BulkFacts.

(** ** Note keys under edits *)

Section NoteKeyEdits.
Import JS Upload Ingestion NoteKey Suggest.
Variable toLowerCase : jstring → jstring.
Variable showNumber : decimal → jstring.

Lemma note_key_insert (k : string) v t :
  k ∉ ["date"; "description"; "amount"; "type"] →
  createTransactionKey toLowerCase showNumber (JObject (<[js k := v]> t))
  = createTransactionKey toLowerCase showNumber (JObject t).
Proof.
  intros Hk. apply note_key_ext. intros k' Hk'.
  rewrite lookup_insert_ne; [done|]. intros <-.
  apply list_elem_of_fmap in Hk' as (k'' & E & Hin). apply js_inj in E. by subst k''.
Qed.

Lemma note_keys_pointwise (g : obj → obj) (txs : list obj) :
  (∀ t, createTransactionKey toLowerCase showNumber (JObject (g t))
        = createTransactionKey toLowerCase showNumber (JObject t)) →
  (λ t, createTransactionKey toLowerCase showNumber (JObject t)) <$> (g <$> txs)
  = (λ t, createTransactionKey toLowerCase showNumber (JObject t)) <$> txs.
Proof.
  intros H. rewrite <- list_fmap_compose. apply list_fmap_ext. intros _ t _. apply H.
Qed.

(** X7.  The key a note is saved under is made of [date], [description],
    [amount] and [type] only, so no edit of the revision with saved
    sessions moves a note: a stored transaction has the key of the record
    it was made from, whatever id it got, and assigning a category,
    taking a suggestion and saving a note leave the key of every
    transaction as it was. *)
Theorem note_key_survives_edits (st : AppSessions.State) :
  let keys (st : AppSessions.State) :=
    (λ t, createTransactionKey toLowerCase showNumber (JObject t))
      <$> AppSessions.transactions st in
  (∀ r now count,
     createTransactionKey toLowerCase showNumber (JObject (Notes.newTransaction r now count))
     = createTransactionKey toLowerCase showNumber (JObject (ownProps r.1)))
  ∧ (∀ id category, keys (handleUpdateTransactionCategory id category st) = keys st)
  ∧ (∀ apiKey reply txId,
       keys (handleSuggestCategory showNumber apiKey reply txId st) = keys st)
  ∧ (∀ txId note items items' st',
       handleSaveNote toLowerCase showNumber txId note items st = Some (items', st') →
       keys st' = keys st).
Proof.
  intros keys.
  assert (∀ id category, keys (handleUpdateTransactionCategory id category st) = keys st)
    as Hupdate.
  { intros id category. subst keys.
    cbn [handleUpdateTransactionCategory AppSessions.transactions].
    apply note_keys_pointwise. intros t. destruct (hasId id t); [|done].
    apply (note_key_insert "category"). set_solver. }
  split_and!.
  - intros r now count. apply note_key_of_stored.
  - exact Hupdate.
  - intros apiKey reply txId. unfold handleSuggestCategory.
    destruct (List.find _ _); [|done]. case_bool_decide; [done|].
    destruct (negb apiKey); [done|]. destruct (toStr _ _); [|done].
    destruct reply as [text|]; [|done]. cbn zeta.
    destruct (listed _ _); [apply Hupdate|done].
  - intros txId note items items' st' Hsave. unfold handleSaveNote in Hsave.
    destruct (List.find _ _) as [transaction|]; [|by injection Hsave as _ <-].
    destruct (createTransactionKey _ _ _) as [noteKey|]; [|done].
    injection Hsave as _ <-. subst keys. cbn [AppSessions.transactions].
    apply note_keys_pointwise. intros t. destruct (hasId txId t); [|done].
    apply (note_key_insert "notes"). set_solver.
Qed.

End NoteKeyEdits.

(** ** Examples for the revisions with notes *)

Section NoteExamples.
Import JS Upload Lines Ingestion NoteIngestion NoteKey Samples Samples2.

Lemma notes_decoder_is_stricter_witness :
  Notes.accepted noteKeyOf (getItemOf savedNotes) coffee
    = Some (wire coffee, JString (js "team breakfast"))
  ∧ App1.accepted coffee = Some (wire coffee)
  ∧ is_Some (App1.accepted oddShapes)
  ∧ Notes.accepted noteKeyOf (getItemOf savedNotes) oddShapes = None.
Proof.
  assert (Notes.accepted noteKeyOf (getItemOf savedNotes) coffee
          = Some (wire coffee, JString (js "team breakfast"))) as H
    by (vm_compute; reflexivity).
  split_and!; [exact H| |vm_compute; by eexists|vm_compute; reflexivity].
  destruct (notes_decoder_is_stricter asciiLower showShort (getItemOf savedNotes)
              coffee (wire coffee) (JString (js "team breakfast")) H) as (Ha & _).
  exact Ha.
Defined.

Lemma sessions_upload_stores_terminated_lines_witness :
  let upload chunks failure :=
    AppSessions.transactions
      (AppSessions.handleFileChange frozen noteKeyOf (getItemOf savedNotes) asciiLower
         true (Some pdf) {| chunks := chunks; failure := failure |} idleSessions) in
  upload openEnded None = upload openEndedRecut (Some NotAnError)
  ∧ length (upload openEnded None) = 2.
Proof.
  intros upload. split; [|vm_compute; reflexivity].
  destruct (sessions_upload_stores_terminated_lines frozen noteKeyOf
              (getItemOf savedNotes) asciiLower pdf
              {| chunks := openEnded; failure := None |} idleSessions)
    as (_ & H & _); [left; reflexivity|].
  symmetry. apply (H {| chunks := openEndedRecut; failure := Some NotAnError |}).
  vm_compute; reflexivity.
Defined.

Lemma last_session_upload_stores_lines_witness :
  let upload chunks failure :=
    AppLastSession.transactions
      (AppLastSession.handleFileChange frozen noteKeyOf (getItemOf savedNotes)
         true (Some pdf) {| chunks := chunks; failure := failure |} idleLastSession) in
  upload openEndedRecut None = upload openEnded None
  ∧ length (upload openEnded None) = 3
  ∧ length (upload openEnded (Some NotAnError)) = 2.
Proof.
  intros upload. split_and!; [|vm_compute; reflexivity..].
  destruct (last_session_upload_stores_lines frozen noteKeyOf
              (getItemOf savedNotes) pdf
              {| chunks := openEnded; failure := None |} idleLastSession)
    as (_ & H & _); [reflexivity|].
  apply (H {| chunks := openEndedRecut; failure := None |}); [vm_compute; reflexivity|done].
Defined.


End NoteExamples.

(** ** Examples for sessions and trimmed notes *)

Section SessionExamples.
Import JS Upload Lines Ingestion NoteIngestion NoteKey Sessions Samples Samples2.

Lemma sessions_stay_sorted_and_named_apart_witness :
  let sessions := run asciiLower [] (firstSaves ++ moreSaves) in
  newestFirst sessions ∧ namedApart asciiLower sessions
  ∧ session_name <$> sessions = [js "JANUARY"; js "March"].
Proof.
  intros sessions.
  destruct (sessions_stay_sorted_and_named_apart asciiLower [] (firstSaves ++ moreSaves))
    as [Hs Hn]; [exact I|apply NoDup_nil_2|].
  split_and!; [exact Hs|exact Hn|vm_compute; reflexivity].
Defined.

Lemma saved_session_loads_back_witness :
  let sessions := run asciiLower [] firstSaves in
  let sessions' :=
    handleSaveSession asciiLower 1700000003000 1700000003000 (js "JANUARY")
      renamingSessions sessions in
  (showZ 1700000003000 ∉
     session_id <$> List.filter (otherName asciiLower (js "JANUARY")) sessions)
  ∧ AppSessions.transactions (handleLoadSession (showZ 1700000003000) sessions' idleSessions)
    = AppSessions.transactions renamingSessions
  ∧ session_name <$> sessions' = [js "JANUARY"; js "february"].
Proof.
  intros sessions sessions'.
  assert (showZ 1700000003000 ∉
            session_id <$> List.filter (otherName asciiLower (js "JANUARY")) sessions)
    as Hfresh by (apply (bool_decide_unpack _); vm_compute; exact I).
  split_and!; [exact Hfresh| |vm_compute; reflexivity].
  destruct (saved_session_loads_back asciiLower 1700000003000 1700000003000
              (js "JANUARY") renamingSessions idleSessions sessions Hfresh)
    as (H & _).
  exact H.
Defined.


End SessionExamples.
